(** * MarketSentimentSheets: the identity, merge and enrichment core

    A shallow embedding of [main.py] and [news_sentiment.py]: the article
    fingerprints ([make_news_id], [make_article_key]), their lazy
    assignment to a table, the archive merge with its two dedup passes,
    and the incremental sentiment enrichment.

    Conventions of the model.
    - A Python [str] is a Rocq [string], read as the UTF-8 bytes of the
      text; [upper], [lower] and [strip] act on the ASCII range, which is
      exact for ASCII text.
    - A cell that pandas reports as null ([isna]) is [None].  The
      functions of [main.py] are annotated over [str | None], and the
      model follows the annotations.
    - [hashlib.sha256] is the SHA-256 of FIPS 180-4, written out below.
    - A VADER compound score is a rational number: the comparisons with
      the literals [0.05] and [-0.05] agree on doubles and on rationals,
      because no double lies strictly between [1/20] and the double
      nearest to it. *)

From Stdlib Require Import NArith ZArith QArith Ascii String List Bool Lia.
From stdpp Require Import base decidable option list strings gmap.

Local Open Scope string_scope.
Local Open Scope list_scope.
Local Set Warnings "-clear-no-such-hyp".

(** ** SHA-256 (FIPS 180-4), on 32-bit words held in [N] *)

Module Sha256.
Local Open Scope N_scope.

Definition mask32 : N := 0xFFFFFFFF.
Definition w32 (x : N) : N := N.land x mask32.
Definition add32 (a b : N) : N := w32 (a + b).
Definition rotr (n x : N) : N := N.lor (N.shiftr x n) (w32 (N.shiftl x (32 - n))).
Definition shr (n x : N) : N := N.shiftr x n.
Definition not32 (x : N) : N := N.lxor x mask32.

Definition Ch (x y z : N) : N := N.lxor (N.land x y) (N.land (not32 x) z).
Definition Maj (x y z : N) : N :=
  N.lxor (N.land x y) (N.lxor (N.land x z) (N.land y z)).
Definition bsig0 (x : N) : N := N.lxor (rotr 2 x) (N.lxor (rotr 13 x) (rotr 22 x)).
Definition bsig1 (x : N) : N := N.lxor (rotr 6 x) (N.lxor (rotr 11 x) (rotr 25 x)).
Definition ssig0 (x : N) : N := N.lxor (rotr 7 x) (N.lxor (rotr 18 x) (shr 3 x)).
Definition ssig1 (x : N) : N := N.lxor (rotr 17 x) (N.lxor (rotr 19 x) (shr 10 x)).

(** The constants of FIPS 180-4, by their definition: the first 32 bits
    of the fractional parts of the cube roots (for [K]) and of the
    square roots (for [H0]) of the first primes. *)
Fixpoint has_divisor (fuel : nat) (d n : N) : bool :=
  match fuel with
  | O => false
  | S fuel' =>
      if n <? d * d then false
      else if n mod d =? 0 then true
      else has_divisor fuel' (d + 1) n
  end.

Definition is_prime (n : N) : bool := (2 <=? n) && negb (has_divisor 32 2 n).

Definition primes_below (bound : nat) : list N :=
  List.filter is_prime (map N.of_nat (seq 0 bound)).

(** The largest [r] below [2 ^ bits] with [r ^ k <= n], found bit by bit. *)
Fixpoint root_floor (k : N) (bits : nat) (n r : N) : N :=
  match bits with
  | O => r
  | S bits' =>
      let r' := N.lor r (N.shiftl 1 (N.of_nat bits')) in
      if r' ^ k <=? n then root_floor k bits' n r' else root_floor k bits' n r
  end.

Definition fraction_bits_of_root (k : N) (p : N) : N :=
  w32 (root_floor k 40 (p * 2 ^ (32 * k)) 0).

Definition K : list N :=
  Eval vm_compute in map (fraction_bits_of_root 3) (primes_below 312).

Definition H0 : list N :=
  Eval vm_compute in map (fraction_bits_of_root 2) (primes_below 20).

(** Padding: the byte 0x80, zero bytes up to 56 modulo 64, then the bit
    length of the message as a 64-bit big-endian integer. *)
Definition be_bytes (n : nat) (x : N) : list N :=
  map (fun i => N.land (N.shiftr x (8 * N.of_nat i)) 0xFF) (rev (seq 0 n)).

Definition pad (msg : list N) : list N :=
  let len := length msg in
  let zeros := ((64 - ((len + 9) mod 64)) mod 64)%nat in
  msg ++ [0x80] ++ repeat 0 zeros ++ be_bytes 8 (8 * N.of_nat len).

Definition word_of_bytes (bs : list N) : N :=
  fold_left (fun acc b => N.lor (N.shiftl acc 8) b) bs 0.

Fixpoint chunks {A} (fuel size : nat) (l : list A) : list (list A) :=
  match fuel with
  | O => []
  | S fuel' =>
      match l with
      | [] => []
      | _ => firstn size l :: chunks fuel' size (skipn size l)
      end
  end.

Definition words_of_block (block : list N) : list N :=
  map word_of_bytes (chunks 16 4 block).

(** Message schedule; [recent] holds the words computed so far, newest
    first, so that W[t-2], W[t-7], W[t-15], W[t-16] sit at positions
    1, 6, 14 and 15. *)
Fixpoint schedule (n : nat) (recent : list N) : list N :=
  match n with
  | O => recent
  | S n' =>
      let w := add32 (add32 (ssig1 (nth 1 recent 0)) (nth 6 recent 0))
                     (add32 (ssig0 (nth 14 recent 0)) (nth 15 recent 0)) in
      schedule n' (w :: recent)
  end.

Record regs := Regs { ra : N; rb : N; rc : N; rd : N; re : N; rf : N; rg : N; rh : N }.

Definition round (s : regs) (kw : N * N) : regs :=
  let '(k, w) := kw in
  let t1 := add32 (add32 (add32 (rh s) (bsig1 (re s))) (add32 (Ch (re s) (rf s) (rg s)) k)) w in
  let t2 := add32 (bsig0 (ra s)) (Maj (ra s) (rb s) (rc s)) in
  Regs (add32 t1 t2) (ra s) (rb s) (rc s) (add32 (rd s) t1) (re s) (rf s) (rg s).

Definition regs_of (h : list N) : regs :=
  Regs (nth 0 h 0) (nth 1 h 0) (nth 2 h 0) (nth 3 h 0)
       (nth 4 h 0) (nth 5 h 0) (nth 6 h 0) (nth 7 h 0).

Definition list_of (s : regs) : list N :=
  [ra s; rb s; rc s; rd s; re s; rf s; rg s; rh s].

Definition compress (h : list N) (block : list N) : list N :=
  let w := rev (schedule 48 (rev (words_of_block block))) in
  let s := fold_left round (combine K w) (regs_of h) in
  map (fun p => add32 (fst p) (snd p)) (combine h (list_of s)).

Definition digest (msg : list N) : list N :=
  let padded := pad msg in
  fold_left compress (chunks (length padded) 64 padded) H0.

Definition hex_digit (d : N) : ascii :=
  if d <? 10 then ascii_of_N (48 + d) else ascii_of_N (87 + d).

Definition hex_of_word (w : N) : string :=
  string_of_list_ascii
    (map (fun i => hex_digit (N.land (N.shiftr w (4 * N.of_nat i)) 0xF)) (rev (seq 0 8))).

Definition bytes_of_string (s : string) : list N :=
  map N_of_ascii (list_ascii_of_string s).

(** [hashlib.sha256(s.encode("utf-8")).hexdigest()] *)
Definition hexdigest (s : string) : string :=
  fold_right String.append "" (map hex_of_word (digest (bytes_of_string s))).

End Sha256.

(** ** Python string operations used by the program *)

Module PyStr.

(** [str.isspace] on one ASCII character: TAB..CR, FS..US and space. *)
Definition isspace (c : ascii) : bool :=
  let n := nat_of_ascii c in
  ((9 <=? n) && (n <=? 13) || (28 <=? n) && (n <=? 32))%nat.

Fixpoint lstrip (s : string) : string :=
  match s with
  | EmptyString => EmptyString
  | String c s' => if isspace c then lstrip s' else s
  end.

Fixpoint rstrip (s : string) : string :=
  match s with
  | EmptyString => EmptyString
  | String c s' =>
      match rstrip s' with
      | EmptyString => if isspace c then EmptyString else String c EmptyString
      | t => String c t
      end
  end.

Definition strip (s : string) : string := rstrip (lstrip s).

Definition upper_char (c : ascii) : ascii :=
  let n := nat_of_ascii c in
  if ((97 <=? n) && (n <=? 122))%nat then ascii_of_nat (n - 32) else c.

Definition lower_char (c : ascii) : ascii :=
  let n := nat_of_ascii c in
  if ((65 <=? n) && (n <=? 90))%nat then ascii_of_nat (n + 32) else c.

Fixpoint map_chars (f : ascii -> ascii) (s : string) : string :=
  match s with
  | EmptyString => EmptyString
  | String c s' => String (f c) (map_chars f s')
  end.

Definition upper : string -> string := map_chars upper_char.
Definition lower : string -> string := map_chars lower_char.

(** [sep.join(parts)] *)
Definition join (sep : string) (parts : list string) : string :=
  String.concat sep parts.

(** [needle in hay] *)
Fixpoint contains (needle hay : string) : bool :=
  String.prefix needle hay ||
  match hay with
  | EmptyString => false
  | String _ hay' => contains needle hay'
  end.

(** [x or ""] for [x : str | None] *)
Definition or_empty (x : option string) : string := default EmptyString x.

(** Truthiness of a [str]: the empty string is falsy. *)
Definition truthy (s : string) : bool :=
  match s with EmptyString => false | _ => true end.

End PyStr.

(** ** Data model *)

(** A raw article record of the news source, as [fetch_page] returns it in
    the list under ["articles"]; a key the record lacks reads as [None]. *)
Record Source := { name : option string }.

Record Article := {
  a_source : option Source;
  a_author : option string;
  a_title : option string;
  a_description : option string;
  a_url : option string;
  a_publishedAt : option string;
  a_content : option string
}.

(** One row of a table; the fields carry the names of the columns. *)
Record Row := {
  Ticker : option string;
  source : option string;
  author : option string;
  title : option string;
  description : option string;
  url : option string;
  publishedAt : option string;
  content_snippet : option string;
  NewsID : option string;
  ArticleKey : option string;
  sentiment_score : option Q;
  sentiment_label : option string
}.

Definition with_NewsID (v : option string) (r : Row) : Row :=
  {| Ticker := Ticker r; source := source r; author := author r; title := title r;
     description := description r; url := url r; publishedAt := publishedAt r;
     content_snippet := content_snippet r; NewsID := v; ArticleKey := ArticleKey r;
     sentiment_score := sentiment_score r; sentiment_label := sentiment_label r |}.

Definition with_ArticleKey (v : option string) (r : Row) : Row :=
  {| Ticker := Ticker r; source := source r; author := author r; title := title r;
     description := description r; url := url r; publishedAt := publishedAt r;
     content_snippet := content_snippet r; NewsID := NewsID r; ArticleKey := v;
     sentiment_score := sentiment_score r; sentiment_label := sentiment_label r |}.

Definition with_score (v : option Q) (r : Row) : Row :=
  {| Ticker := Ticker r; source := source r; author := author r; title := title r;
     description := description r; url := url r; publishedAt := publishedAt r;
     content_snippet := content_snippet r; NewsID := NewsID r; ArticleKey := ArticleKey r;
     sentiment_score := v; sentiment_label := sentiment_label r |}.

Definition with_label (v : option string) (r : Row) : Row :=
  {| Ticker := Ticker r; source := source r; author := author r; title := title r;
     description := description r; url := url r; publishedAt := publishedAt r;
     content_snippet := content_snippet r; NewsID := NewsID r; ArticleKey := ArticleKey r;
     sentiment_score := sentiment_score r; sentiment_label := v |}.

(** The text cell of a row under a column name.  The score column is
    numeric and has its own accessor; other names are not columns of the
    archive format. *)
Definition text_cell (c : string) (r : Row) : option string :=
  if String.eqb c "Ticker" then Ticker r
  else if String.eqb c "source" then source r
  else if String.eqb c "author" then author r
  else if String.eqb c "title" then title r
  else if String.eqb c "description" then description r
  else if String.eqb c "url" then url r
  else if String.eqb c "publishedAt" then publishedAt r
  else if String.eqb c "content_snippet" then content_snippet r
  else if String.eqb c "NewsID" then NewsID r
  else if String.eqb c "ArticleKey" then ArticleKey r
  else if String.eqb c "sentiment_label" then sentiment_label r
  else None.

(** A pandas DataFrame: the column labels and the rows in index order. *)
Record DataFrame := { columns : list string; rows : list Row }.

Definition has_column (c : string) (df : DataFrame) : bool :=
  bool_decide (c ∈ columns df).

(** [df.empty]: some axis has length 0. *)
Definition empty (df : DataFrame) : bool :=
  match rows df, columns df with
  | [], _ => true
  | _, [] => true
  | _, _ => false
  end.

(** A cell is data only under a column the frame has; [reindex] gives a
    row the nulls that pandas shows under the other labels. *)
Definition under (cols : list string) (c : string) {A} (v : option A) : option A :=
  if bool_decide (c ∈ cols) then v else None.

Definition reindex (cols : list string) (r : Row) : Row :=
  {| Ticker := under cols "Ticker" (Ticker r);
     source := under cols "source" (source r);
     author := under cols "author" (author r);
     title := under cols "title" (title r);
     description := under cols "description" (description r);
     url := under cols "url" (url r);
     publishedAt := under cols "publishedAt" (publishedAt r);
     content_snippet := under cols "content_snippet" (content_snippet r);
     NewsID := under cols "NewsID" (NewsID r);
     ArticleKey := under cols "ArticleKey" (ArticleKey r);
     sentiment_score := under cols "sentiment_score" (sentiment_score r);
     sentiment_label := under cols "sentiment_label" (sentiment_label r) |}.

(** The representation invariant of a frame that pandas built: no data
    outside the frame's columns. *)
Definition well_formed (df : DataFrame) : Prop :=
  Forall (fun r => reindex (columns df) r = r) (rows df).

(** ** Exceptions, results and the event log *)

Inductive exn :=
| KeyError (key : string)
| ValueError (msg : string)
| RuntimeError (msg : string)
| EmptyDataError (msg : string)
| OtherError (msg : string).

Inductive result (A : Type) :=
| Ok (a : A)
| Raise (e : exn).
Arguments Ok {A} a.
Arguments Raise {A} e.

#[global] Instance result_ret : MRet result := fun A a => Ok a.
#[global] Instance result_bind : MBind result := fun A B k m =>
  match m with
  | Ok a => k a
  | Raise e => Raise e
  end.

(** What [main] prints, and the calls of the sentiment scorer. *)
Inductive message :=
| MsgTicker (ticker : string)
| MsgSkipping
| MsgRateLimit (ticker msg : string)
| MsgRetrieved (n : nat) (ticker : string)
| MsgNothingToDo
| MsgUsingExisting
| MsgFoundExisting (n : nat)
| MsgFetched (n : nat)
| MsgNewUnique (n : nat)
| MsgCreating
| MsgFinalSize (n : nat)
| MsgSaved (n : nat).

Inductive event :=
| Print (m : message)
| PolarityScores (text : string).

(** Computations that log events and may raise. *)
Definition M (A : Type) : Type := (list event * result A)%type.

#[global] Instance M_ret : MRet M := fun A a => ([], Ok a).
#[global] Instance M_bind : MBind M := fun A B k m =>
  match m with
  | (l, Ok a) => let '(l', r) := k a in (l ++ l', r)
  | (l, Raise e) => (l, Raise e)
  end.

Definition print (m : message) : M unit := ([Print m], Ok tt).
Definition raise {A} (e : exn) : M A := ([], Raise e).
Definition lift {A} (r : result A) : M A := ([], r).

(** ** The pandas operations the program uses *)

(** A row as [df.apply(..., axis=1)] and [iterrows] hand it over: the
    labels of the frame and the values. *)
Definition Series : Type := (list string * Row)%type.

(** [row.get(c, dflt)] *)
Definition Series_get (row : Series) (c : string) (dflt : option string) : option string :=
  if bool_decide (c ∈ row.1) then text_cell c row.2 else dflt.

(** [df.apply(f, axis=1)] *)
Definition apply {V} (f : Series -> V) (df : DataFrame) : list V :=
  fmap (fun r => f (columns df, r)) (rows df).

Definition add_column (c : string) (cols : list string) : list string :=
  if bool_decide (c ∈ cols) then cols else cols ++ [c].

(** [df[c] = vals], one value per row *)
Definition setitem {V} (c : string) (set : V -> Row -> Row) (vals : list V)
    (df : DataFrame) : DataFrame :=
  {| columns := add_column c (columns df);
     rows := zip_with (fun r v => set v r) (rows df) vals |}.

(** [df[c] = v], the scalar [v] in every row *)
Definition setitem_scalar {V} (c : string) (set : V -> Row -> Row) (v : V)
    (df : DataFrame) : DataFrame :=
  {| columns := add_column c (columns df); rows := fmap (set v) (rows df) |}.

(** [df[c]]: a label the frame lacks is a [KeyError]. *)
Definition getitem (c : string) (df : DataFrame) : result (list (option string)) :=
  if has_column c df then Ok (fmap (text_cell c) (rows df)) else Raise (KeyError c).

Definition isna {A} (v : option A) : bool :=
  match v with None => true | Some _ => false end.

(** Boolean indexing: the entries of [l] under a [true] of the mask. *)
Fixpoint select {A} (mask : list bool) (l : list A) : list A :=
  match mask, l with
  | b :: mask', x :: l' => if b then x :: select mask' l' else select mask' l'
  | _, _ => []
  end.

(** [df[mask]] *)
Definition getitem_mask (mask : list bool) (df : DataFrame) : DataFrame :=
  {| columns := columns df; rows := select mask (rows df) |}.

(** [col.isin(values)] *)
Definition isin (values : gset (option string)) (col : list (option string)) : list bool :=
  fmap (fun v => bool_decide (v ∈ values)) col.

(** [duplicated(keep="first")]: a key is a duplicate when an earlier row
    holds it; nulls count as equal to each other. *)
Fixpoint duplicated (seen : gset (option string)) (keys : list (option string)) : list bool :=
  match keys with
  | [] => []
  | k :: keys' => bool_decide (k ∈ seen) :: duplicated ({[ k ]} ∪ seen) keys'
  end.

(** [df.drop_duplicates(subset=[c])].  An empty frame is returned as it
    is, before the subset is looked at. *)
Definition drop_duplicates (c : string) (df : DataFrame) : result DataFrame :=
  if empty df then Ok df
  else if has_column c df then
    Ok (getitem_mask (fmap negb (duplicated ∅ (fmap (text_cell c) (rows df)))) df)
  else Raise (KeyError c).

Definition union_columns (cols1 cols2 : list string) : list string :=
  cols1 ++ filter (fun c => c ∉ cols1) cols2.

(** [pd.concat(dfs, ignore_index=True)]: the union of the columns in
    order of appearance, the rows of each frame in turn. *)
Definition concat (dfs : list DataFrame) : result DataFrame :=
  match dfs with
  | [] => Raise (ValueError "No objects to concatenate")
  | _ =>
      Ok {| columns := foldl union_columns [] (fmap columns dfs);
            rows := dfs ≫= (fun df => fmap (reindex (columns df)) (rows df)) |}
  end.

(** [pd.DataFrame(records)] for the records of [fetch_news_for_ticker]. *)
Definition DataFrame_of_records (records : list Row) : DataFrame :=
  {| columns :=
       match records with
       | [] => []
       | _ => ["Ticker"; "source"; "author"; "title"; "description"; "url";
               "publishedAt"; "content_snippet"]
       end;
     rows := records |}.

(** [pd.read_csv(path)].  The file [news_db.csv] is modelled by the table
    it holds: a header and the records under it.  A file without a header
    is an [EmptyDataError]; a record has cells under the header only. *)
Definition read_csv (file : DataFrame) : result DataFrame :=
  match columns file with
  | [] => Raise (EmptyDataError "No columns to parse from file")
  | cols => Ok {| columns := cols; rows := fmap (reindex cols) (rows file) |}
  end.

(** [df.loc[mask, cols]]: a label the frame lacks is a [KeyError]. *)
Definition loc (mask : list bool) (cols : list string) (df : DataFrame) : result DataFrame :=
  match filter (fun c => c ∉ columns df) cols with
  | [] => Ok {| columns := cols; rows := fmap (reindex cols) (select mask (rows df)) |}
  | c :: _ => Raise (KeyError c)
  end.

(** [df.loc[mask, c] = vals]: the values go, in order, to the rows under
    a [true] of the mask. *)
Fixpoint loc_set_rows {V} (set : V -> Row -> Row) (mask : list bool) (vals : list V)
    (l : list Row) : list Row :=
  match mask, l with
  | true :: mask', r :: l' =>
      match vals with
      | v :: vals' => set v r :: loc_set_rows set mask' vals' l'
      | [] => r :: l'
      end
  | false :: mask', r :: l' => r :: loc_set_rows set mask' vals l'
  | _, _ => l
  end.

Definition loc_set {V} (c : string) (set : V -> Row -> Row) (mask : list bool)
    (vals : list V) (df : DataFrame) : DataFrame :=
  {| columns := add_column c (columns df);
     rows := loc_set_rows set mask vals (rows df) |}.

(** ** news_sentiment.py *)

Section Program.

(** [_SIA.polarity_scores]: the VADER analyzer, an external collaborator;
    it returns a dict of scores. *)
Variable polarity_scores : string -> gmap string Q.

Definition _sentiment_for_text (text : option string) : M (option Q * option string) :=
  match text with
  | None => mret (None, None)
  | Some text =>
      if negb (PyStr.truthy text) || negb (PyStr.truthy (PyStr.strip text))
      then mret (None, None)
      else
        scores ← ([PolarityScores text], Ok (polarity_scores text));
        let compound := default 0%Q (scores !! "compound") in
        let label :=
          if Qle_bool (5 # 100) compound then "positive"
          else if Qle_bool compound (- (5 # 100)) then "negative"
          else "neutral" in
        mret (Some compound, Some label)
  end.

Definition default_text_columns : list string :=
  ["title"; "description"; "content_snippet"].

(** The body of the [for _, row in subset.iterrows()] loop up to the call
    of [_sentiment_for_text]: the text of one row. *)
Definition row_text (text_columns : list string) (row : Series) : string :=
  let parts :=
    omap (fun col =>
            match Series_get row col None with
            | Some val =>
                if PyStr.truthy (PyStr.strip val) then Some (PyStr.strip val) else None
            | None => None
            end) text_columns in
  PyStr.join " " parts.

Fixpoint score_rows (text_columns : list string) (subset : list Series)
    : M (list (option Q) * list (option string)) :=
  match subset with
  | [] => mret ([], [])
  | row :: subset' =>
      let text := row_text text_columns row in
      '(score, label) ← _sentiment_for_text (Some text);
      '(scores, labels) ← score_rows text_columns subset';
      mret (score :: scores, label :: labels)
  end.

(** "Create columns if they don't exist" *)
Definition create_sentiment_columns (df : DataFrame) : DataFrame :=
  let df := if has_column "sentiment_score" df then df
            else setitem_scalar "sentiment_score" with_score None df in
  let df := if has_column "sentiment_label" df then df
            else setitem_scalar "sentiment_label" with_label None df in
  df.

Definition ensure_sentiment_with (text_columns : list string) (df : DataFrame) : M DataFrame :=
  if empty df then mret df
  else
    let df := create_sentiment_columns df in
    let mask := fmap (fun r => isna (sentiment_score r)) (rows df) in
    if negb (existsb id mask) then mret df
    else
      subset ← lift (loc mask text_columns df);
      '(scores, labels) ← score_rows text_columns
                            (fmap (fun r => (columns subset, r)) (rows subset));
      let df := loc_set "sentiment_score" with_score mask scores df in
      let df := loc_set "sentiment_label" with_label mask labels df in
      mret df.

(** [ensure_sentiment(df)] with the default arguments, as [main] calls it. *)
Definition ensure_sentiment (df : DataFrame) : M DataFrame :=
  ensure_sentiment_with default_text_columns df.

(** ** main.py *)

Definition TICKERS : list string := ["NVDA"; "MSFT"; "AAPL"; "MELI"; "GOOGL"; "YPF"].

Definition make_news_id (ticker url published_at : option string) : string :=
  let ticker := PyStr.upper (PyStr.or_empty ticker) in
  let url := PyStr.strip (PyStr.or_empty url) in
  let published_at := PyStr.strip (PyStr.or_empty published_at) in
  let key := ticker +:+ "|" +:+ url +:+ "|" +:+ published_at in
  Sha256.hexdigest key.

Definition ensure_news_id (df : DataFrame) : DataFrame :=
  if empty df then df
  else if negb (has_column "NewsID" df) || existsb isna (fmap NewsID (rows df)) then
    setitem "NewsID" with_NewsID
      (apply (fun r => Some (make_news_id (Series_get r "Ticker" (Some ""))
                                          (Series_get r "url" (Some ""))
                                          (Series_get r "publishedAt" (Some "")))) df)
      df
  else df.

Definition make_article_key (ticker title published_at : option string) : string :=
  let ticker := PyStr.strip (PyStr.upper (PyStr.or_empty ticker)) in
  let title := PyStr.lower (PyStr.strip (PyStr.or_empty title)) in
  let published_at := PyStr.strip (PyStr.or_empty published_at) in
  let key := ticker +:+ "|" +:+ title +:+ "|" +:+ published_at in
  Sha256.hexdigest key.

Definition ensure_article_key (df : DataFrame) : DataFrame :=
  if empty df then df
  else if negb (has_column "ArticleKey" df) || existsb isna (fmap ArticleKey (rows df)) then
    setitem "ArticleKey" with_ArticleKey
      (apply (fun r => Some (make_article_key (Series_get r "Ticker" (Some ""))
                                              (Series_get r "title" (Some ""))
                                              (Series_get r "publishedAt" (Some "")))) df)
      df
  else df.

(** The news source: what [fetch_last_n_days_for_query] returns or raises
    for the query built for a ticker.  The alias lookup and the HTTP
    client are external collaborators. *)
Definition NewsSource : Type := string -> result (list Article).

Definition record_of_article (ticker : string) (a : Article) : Row :=
  {| Ticker := Some (PyStr.upper ticker);
     source := match a_source a with Some s => name s | None => None end;
     author := a_author a;
     title := a_title a;
     description := a_description a;
     url := a_url a;
     publishedAt := a_publishedAt a;
     content_snippet := a_content a;
     NewsID := None; ArticleKey := None;
     sentiment_score := None; sentiment_label := None |}.

Definition fetch_news_for_ticker (fetch : NewsSource) (ticker : string) : result DataFrame :=
  articles ← fetch ticker;
  let df := DataFrame_of_records (fmap (record_of_article ticker) articles) in
  if negb (empty df) then
    df ← drop_duplicates "url" df;
    mret (ensure_news_id df)
  else mret df.

(** The [for ticker in TICKERS] loop of [main], with its two loop
    variables [hit_rate_limit] and [all_dfs]. *)
Fixpoint fetch_per_ticker (fetch : NewsSource) (tickers : list string)
    (hit_rate_limit : bool) (all_dfs : list DataFrame) : M (list DataFrame) :=
  match tickers with
  | [] => mret all_dfs
  | ticker :: tickers' =>
      print (MsgTicker ticker);;
      if hit_rate_limit then
        print MsgSkipping;;
        fetch_per_ticker fetch tickers' hit_rate_limit all_dfs
      else
        match fetch_news_for_ticker fetch ticker with
        | Raise (RuntimeError e) =>
            if PyStr.contains "NewsAPI error 429" e || PyStr.contains "rateLimited" e then
              print (MsgRateLimit ticker e);;
              fetch_per_ticker fetch tickers' true all_dfs
            else raise (RuntimeError e)
        | Raise e => raise e
        | Ok df_ticker =>
            print (MsgRetrieved (length (rows df_ticker)) ticker);;
            fetch_per_ticker fetch tickers' hit_rate_limit (all_dfs ++ [df_ticker])
        end
  end.

(** The section "BUILD OR LOAD DATAFRAME" of [main].  [db] is the file
    [news_db.csv], [None] when it does not exist.  The result [None] is
    the early [return]. *)
Definition build_or_load (all_dfs : list DataFrame) (db : option DataFrame)
    : M (option DataFrame) :=
  match all_dfs with
  | [] =>
      match db with
      | None => print MsgNothingToDo;; mret None
      | Some file =>
          print MsgUsingExisting;;
          final_df ← lift (read_csv file);
          let final_df := ensure_news_id final_df in
          let final_df := ensure_article_key final_df in
          mret (Some final_df)
      end
  | _ =>
      new_df ← lift (concat all_dfs);
      let new_df := ensure_news_id new_df in
      let new_df := ensure_article_key new_df in
      match db with
      | Some file =>
          existing_df ← lift (read_csv file);
          let existing_df := ensure_news_id existing_df in
          let existing_df := ensure_article_key existing_df in
          existing_col ← lift (getitem "NewsID" existing_df);
          let existing_ids : gset (option string) := list_to_set existing_col in
          let before := length (rows new_df) in
          new_col ← lift (getitem "NewsID" new_df);
          let new_only_df := getitem_mask (fmap negb (isin existing_ids new_col)) new_df in
          let after := length (rows new_only_df) in
          print (MsgFoundExisting (length (rows existing_df)));;
          print (MsgFetched before);;
          print (MsgNewUnique after);;
          if Nat.eqb after 0 then mret (Some existing_df)
          else
            final_df ← lift (concat [existing_df; new_only_df]);
            mret (Some final_df)
      | None =>
          print MsgCreating;;
          mret (Some new_df)
      end
  end.

(** The two [drop_duplicates] calls of the section "DEDUP & SENTIMENT". *)
Definition dedup_pass (final_df : DataFrame) : result DataFrame :=
  final_df ← drop_duplicates "NewsID" final_df;
  drop_duplicates "ArticleKey" final_df.

(** The sections "DEDUP & SENTIMENT" and "SAVE" of [main]; the result is
    the table written to [news_db.csv]. *)
Definition dedup_and_save (final_df : DataFrame) : M DataFrame :=
  let final_df := ensure_article_key final_df in
  final_df ← lift (dedup_pass final_df);
  print (MsgFinalSize (length (rows final_df)));;
  final_df ← ensure_sentiment final_df;
  print (MsgSaved (length (rows final_df)));;
  mret final_df.

(** [main] from the section "BUILD OR LOAD DATAFRAME" on. *)
Definition merge_and_save (all_dfs : list DataFrame) (db : option DataFrame)
    : M (option DataFrame) :=
  final_df ← build_or_load all_dfs db;
  match final_df with
  | None => mret None
  | Some final_df => saved ← dedup_and_save final_df; mret (Some saved)
  end.

(** [main()]: the events of the run, and either the table written to
    [news_db.csv] ([Some]), nothing written ([None]), or the exception
    that ended the run. *)
Definition main (fetch : NewsSource) (db : option DataFrame) : M (option DataFrame) :=
  all_dfs ← fetch_per_ticker fetch TICKERS false [];
  merge_and_save all_dfs db.

End Program.

(** ** Notions used in the statements *)

(** The rows that [drop_duplicates] keeps, given the keys already seen. *)
Definition kept {A : Type} (key : A -> option string) (seen : gset (option string))
    (l : list A) : list A :=
  select (negb <$> duplicated seen (key <$> l)) l.

(** The two identities of a row, and the merge of [main] on them: the
    archive, then the batch rows whose NewsID the archive lacks, through
    the NewsID pass and then the ArticleKey pass. *)
Abbreviation keypair := (option string * option string)%type.

Definition ids (r : Row) : keypair := (NewsID r, ArticleKey r).

Definition key_set (ks : list (option string)) : gset (option string) := list_to_set ks.

Definition merge_keys (A N : list keypair) : list keypair :=
  kept snd ∅ (kept fst ∅ (A ++ filter (fun p => p.1 ∉ key_set A.*1) N)).

(** The specification's dedup pass over a table: a row that shares its
    key with an earlier row of the table is removed, so that the first
    occurrence of every key stays. *)
Definition remove_later_duplicates (key : Row -> option string) (table : list Row)
    : list Row :=
  omap (fun '(i, r) =>
          if decide (key r ∈ key <$> take i table) then None else Some r)
       (imap pair table).

(** The fingerprints that [ensure_news_id] and [ensure_article_key]
    compute for a row of a frame with the given columns. *)
Definition computed_news_id (cols : list string) (r : Row) : string :=
  make_news_id (Series_get (cols, r) "Ticker" (Some ""))
               (Series_get (cols, r) "url" (Some ""))
               (Series_get (cols, r) "publishedAt" (Some "")).

Definition computed_article_key (cols : list string) (r : Row) : string :=
  make_article_key (Series_get (cols, r) "Ticker" (Some ""))
                   (Series_get (cols, r) "title" (Some ""))
                   (Series_get (cols, r) "publishedAt" (Some "")).

(** A frame that pandas can hold in [main]: rows only under columns. *)
Definition proper (df : DataFrame) : Prop := columns df = [] -> rows df = [].

(** The columns of an archive that [main] wrote. *)
Definition archive_schema : list string :=
  ["Ticker"; "source"; "author"; "title"; "description"; "url"; "publishedAt";
   "content_snippet"; "NewsID"; "ArticleKey"; "sentiment_score"; "sentiment_label"].

(** An archive in the format that [main] persists, with both keys in
    every row. *)
Definition archive_ok (file : DataFrame) : Prop :=
  (forall c, c ∈ archive_schema -> c ∈ columns file) /\
  Forall (fun r => NewsID r ≠ None /\ ArticleKey r ≠ None) (rows file).

(** The row that [fetch_news_for_ticker] returns for an article. *)
Definition stored (ticker : string) (a : Article) : Row :=
  with_NewsID
    (Some (make_news_id (Some (PyStr.upper ticker)) (a_url a) (a_publishedAt a)))
    (record_of_article ticker a).

Definition fetch_columns : list string :=
  ["Ticker"; "source"; "author"; "title"; "description"; "url"; "publishedAt";
   "content_snippet"; "NewsID"].

Definition fetched_frame (ticker : string) (articles : list Article) : DataFrame :=
  match articles with
  | [] => {| columns := []; rows := [] |}
  | _ => {| columns := fetch_columns; rows := stored ticker <$> kept a_url ∅ articles |}
  end.

(** [new_df] of [main]: the fetched frames, concatenated and keyed. *)
Definition new_frame (all_dfs : list DataFrame) : DataFrame :=
  match concat all_dfs with
  | Ok new_df => ensure_article_key (ensure_news_id new_df)
  | Raise _ => {| columns := []; rows := [] |}
  end.

Definition batch_keys (all_dfs : list DataFrame) : list keypair :=
  match all_dfs with
  | [] => []
  | _ => ids <$> rows (new_frame all_dfs)
  end.

(** The value and the scorer calls of [_sentiment_for_text] on a text. *)
Definition sentiment_value (sia : string -> gmap string Q) (text : string)
    : option Q * option string :=
  match (_sentiment_for_text sia (Some text)).2 with
  | Ok v => v
  | Raise _ => (None, None)
  end.

Definition sentiment_calls (sia : string -> gmap string Q) (text : string) : list event :=
  (_sentiment_for_text sia (Some text)).1.

(** The text that [ensure_sentiment] composes for a row, and the row
    with the sentiment of that text. *)
Definition composed (r : Row) : string :=
  row_text default_text_columns
    (default_text_columns, reindex default_text_columns r).

Definition enrich (sia : string -> gmap string Q) (r : Row) : Row :=
  let v := sentiment_value sia (composed r) in
  with_label v.2 (with_score v.1 r).

Definition enrich_if_missing (sia : string -> gmap string Q) (r : Row) : Row :=
  if isna (sentiment_score r) then enrich sia r else r.

Definition missing_calls (sia : string -> gmap string Q) (r : Row) : list event :=
  if isna (sentiment_score r) then sentiment_calls sia (composed r) else [].

(** A string of white space only (the empty string is one). *)
Fixpoint all_space (s : string) : bool :=
  match s with
  | EmptyString => true
  | String c s' => PyStr.isspace c && all_space s'
  end.

(** The text fields of a row, in the order of [text_columns]. *)
Definition text_fields (r : Row) : list (option string) :=
  [title r; description r; content_snippet r].

(** The specification's composed text: the non-empty text fields,
    joined by a space. *)
Definition composed_spec (r : Row) : string :=
  PyStr.join " "
    (omap (fun v => match v with
                    | Some s => if PyStr.truthy s then Some s else None
                    | None => None
                    end) (text_fields r)).

(** What the loop of [ensure_sentiment] keeps of a text field. *)
Definition clean (v : option string) : option string :=
  match v with
  | Some val => if PyStr.truthy (PyStr.strip val) then Some (PyStr.strip val) else None
  | None => None
  end.

(** The archive row of an NVDA article, with some sentiment, and the
    archive that holds just that row. *)
Definition archived (a : Article) (score : option Q) (label : option string) : Row :=
  with_label label (with_score score
    (with_ArticleKey
       (Some (make_article_key (Some "NVDA") (a_title a) (a_publishedAt a)))
       (stored "NVDA" a))).

Definition archive_of (a : Article) (score : option Q) (label : option string)
    : DataFrame :=
  {| columns := archive_schema; rows := [archived a score label] |}.


(** ** Fixtures of the examples *)

(** A scorer, an article and a news source that has articles for NVDA
    only. *)
Definition sample_scores (text : string) : gmap string Q :=
  {[ "compound" := if PyStr.contains "surge" text then (6 # 10)%Q
                   else if PyStr.contains "slump" text then (- (6 # 10))%Q
                   else 0%Q ]}.

Definition sample_article (url title published_at : string) : Article :=
  {| a_source := Some {| name := Some "Newswire" |};
     a_author := None;
     a_title := Some title;
     a_description := None;
     a_url := Some url;
     a_publishedAt := Some published_at;
     a_content := None |}.

Definition nvda_only (articles : list Article) : NewsSource :=
  fun ticker => if String.eqb ticker "NVDA" then Ok articles else Ok [].

(** A news source that answers every ticker with the rate-limit error. *)
Definition rate_limited : NewsSource :=
  fun _ => Raise (RuntimeError "NewsAPI error 429 (code=rateLimited): too many requests").

(** A news source that answers every ticker with no article. *)
Definition no_articles : NewsSource := fun _ => Ok [].

(** Two articles under one URL, published at different times. *)
Definition same_url_articles : list Article :=
  [ sample_article "https://example.com/a" "Chip news" "2024-01-01T00:00:00Z";
    sample_article "https://example.com/a" "Chip news, updated" "2024-01-02T00:00:00Z" ].

(** A batch of three NVDA articles: two with one title and timestamp
    under different URLs, and a third one. *)
Definition syndicated_articles : list Article :=
  [ sample_article "https://example.com/a" "Chip news" "2024-01-01T00:00:00Z";
    sample_article "https://example.org/a" "Chip news" "2024-01-01T00:00:00Z";
    sample_article "https://example.com/b" "Shares surge" "2024-01-02T00:00:00Z" ].

Definition first_run : M (option DataFrame) :=
  Eval vm_compute in main sample_scores (nvda_only syndicated_articles) None.

(** The archive that [first_run] saved. *)
Definition two_row_archive : DataFrame :=
  Eval vm_compute in
    match first_run.2 with
    | Ok (Some saved) => saved
    | _ => {| columns := []; rows := [] |}
    end.

(** A table whose first row carries an identity of its own and whose
    second row has none. *)
Definition legacy_row (id key : option string) (u t : string) : Row :=
  {| Ticker := Some "NVDA"; source := Some "Newswire"; author := None;
     title := Some t; description := None; url := Some u;
     publishedAt := Some "2024-01-01T00:00:00Z"; content_snippet := None;
     NewsID := id; ArticleKey := key;
     sentiment_score := None; sentiment_label := None |}.


(** An archive with one row, in the format that [main] writes. *)
Definition one_row_archive : DataFrame :=
  archive_of (sample_article "https://example.com/a" "Chip news" "2024-01-01T00:00:00Z")
             (Some 0%Q) (Some "neutral").

(** An archive of an older format, without the key columns, that holds
    one article twice under two URLs; and a batch in which the second
    URL comes back with an edited title. *)
Definition legacy_archive : DataFrame :=
  {| columns := ["Ticker"; "source"; "author"; "title"; "description"; "url";
                 "publishedAt"; "content_snippet"];
     rows := record_of_article "NVDA" <$>
       [ sample_article "https://example.com/a" "Chip news" "2024-01-01T00:00:00Z";
         sample_article "https://example.org/a" "Chip news" "2024-01-01T00:00:00Z" ] |}.

Definition updated_title_batch : NewsSource :=
  nvda_only [ sample_article "https://example.org/a" "Chip news, updated"
                             "2024-01-01T00:00:00Z" ].

(** A table with a scored row, whose label is not what the scorer would
    say, and two rows without a score, one of them with a blank title. *)
Definition partly_scored_table : DataFrame :=
  {| columns := archive_schema;
     rows := [ archived (sample_article "https://example.com/a" "Shares surge"
                                        "2024-01-01T00:00:00Z")
                        (Some (- (7 # 10))%Q) (Some "negative");
               archived (sample_article "https://example.com/b" "Shares slump"
                                        "2024-01-02T00:00:00Z") None None;
               archived (sample_article "https://example.com/c" "   "
                                        "2024-01-03T00:00:00Z") None None ] |}.

(** ** Test vectors and small evaluations *)

Example sha_abc : Sha256.hexdigest "abc" = "ba7816bf8f01cfea414140de5dae2223b00361a396177a9cb410ff61f20015ad".
Proof. vm_compute. reflexivity. Qed.

Example sha_empty : Sha256.hexdigest "" = "e3b0c44298fc1c149afbf4c8996fb92427ae41e4649b934ca495991b7852b855".
Proof. vm_compute. reflexivity. Qed.

Example strip_ex : PyStr.strip "  a b	 " = "a b".
Proof. reflexivity. Qed.

Example upper_ex : PyStr.upper " nvda.x1 " = " NVDA.X1 ".
Proof. reflexivity. Qed.

Example contains_ex : PyStr.contains "error 429" "NewsAPI error 429 (code=rateLimited): x" = true.
Proof. reflexivity. Qed.

Example sha_constants :
  length Sha256.K = 64 /\ length Sha256.H0 = 8 /\
  nth 0 Sha256.K 0%N = 0x428a2f98%N /\ nth 63 Sha256.K 0%N = 0xc67178f2%N /\
  nth 0 Sha256.H0 0%N = 0x6a09e667%N /\ nth 7 Sha256.H0 0%N = 0x5be0cd19%N.
Proof. repeat split; vm_compute; reflexivity. Qed.

(** ** Lemmas: the rows that [drop_duplicates] keeps *)

Section keep_first.
Context {A : Type} (key : A -> option string).

Lemma kept_nil seen : kept key seen [] = [].
Proof. reflexivity. Qed.

Lemma kept_cons seen x l :
  kept key seen (x :: l) =
    if bool_decide (key x ∈ seen) then kept key ({[ key x ]} ∪ seen) l
    else x :: kept key ({[ key x ]} ∪ seen) l.
Proof. unfold kept; simpl. by destruct (bool_decide _). Qed.

Lemma kept_app seen l1 l2 :
  kept key seen (l1 ++ l2) = kept key seen l1 ++ kept key (list_to_set (key <$> l1) ∪ seen) l2.
Proof.
  revert seen; induction l1 as [|x l1 IH]; intros seen.
  - simpl. f_equal. set_solver.
  - rewrite <- app_comm_cons, !kept_cons, IH.
    replace (list_to_set (key <$> x :: l1) ∪ seen)
      with (list_to_set (key <$> l1) ∪ ({[ key x ]} ∪ seen)) by set_solver.
    by destruct (bool_decide _).
Qed.

Lemma elem_of_kept seen l x : x ∈ kept key seen l -> x ∈ l /\ key x ∉ seen.
Proof.
  revert seen; induction l as [|y l IH]; intros seen; [by rewrite kept_nil; inversion 1|].
  rewrite kept_cons. case_bool_decide as Hy.
  - intros [? ?]%IH. split; [by right | set_solver].
  - intros [->|[? ?]%IH]%elem_of_cons; [split; [by left | done]|].
    split; [by right | set_solver].
Qed.

Lemma NoDup_kept seen l : NoDup (key <$> kept key seen l).
Proof.
  revert seen; induction l as [|y l IH]; intros seen; [constructor|].
  rewrite kept_cons. case_bool_decide; [apply IH|].
  rewrite fmap_cons. constructor; [|apply IH].
  intros (z & Hz & [_ Hn]%elem_of_kept)%list_elem_of_fmap. set_solver.
Qed.

Lemma kept_covers seen l x :
  x ∈ l -> key x ∈ seen \/ key x ∈ key <$> kept key seen l.
Proof.
  revert seen; induction l as [|y l IH]; intros seen; [inversion 1|].
  rewrite kept_cons. intros [->|Hx]%elem_of_cons.
  - case_bool_decide; [by left | right; rewrite fmap_cons; by left].
  - destruct (IH ({[ key y ]} ∪ seen) Hx) as [Hs|Hk].
    + apply elem_of_union in Hs as [->%elem_of_singleton|?]; [|by left].
      case_bool_decide; [by left | right; rewrite fmap_cons; by left].
    + right. case_bool_decide; [done | rewrite fmap_cons; by right].
Qed.

Lemma kept_id seen l :
  NoDup (key <$> l) -> (forall x, x ∈ l -> key x ∉ seen) -> kept key seen l = l.
Proof.
  revert seen; induction l as [|y l IH]; intros seen Hnd Hs; [done|].
  rewrite fmap_cons in Hnd. apply NoDup_cons in Hnd as [Hy Hnd].
  rewrite kept_cons. rewrite bool_decide_eq_false_2 by (apply Hs; by left).
  f_equal. apply IH; [done|]. intros x Hx.
  intros [Heq%elem_of_singleton|?]%elem_of_union.
  - apply Hy. rewrite <- Heq. apply list_elem_of_fmap. eauto.
  - eapply Hs; [by right | done].
Qed.

Lemma kept_all_seen seen l :
  (forall x, x ∈ l -> key x ∈ seen) -> kept key seen l = [].
Proof.
  revert seen; induction l as [|y l IH]; intros seen Hs; [done|].
  rewrite kept_cons. rewrite bool_decide_eq_true_2 by (apply Hs; by left).
  apply IH. intros x Hx. apply elem_of_union_r, Hs. by right.
Qed.

Lemma kept_mono seen seen' l x :
  seen ⊆ seen' -> x ∈ kept key seen' l -> x ∈ kept key seen l.
Proof.
  revert seen seen'; induction l as [|y l IH]; intros seen seen' Hsub; [done|].
  rewrite !kept_cons.
  assert ({[ key y ]} ∪ seen ⊆ {[ key y ]} ∪ seen') as Hsub' by set_solver.
  case_bool_decide as H1; case_bool_decide as H2.
  - by apply IH.
  - intros ?. right. by eapply IH.
  - set_solver.
  - intros [->|?]%elem_of_cons; [by left | right; by eapply IH].
Qed.

Lemma kept_filter s0 seen l :
  s0 ⊆ seen -> kept key seen (filter (fun x => key x ∉ s0) l) = kept key seen l.
Proof.
  revert seen; induction l as [|y l IH]; intros seen Hsub; [done|].
  rewrite filter_cons. case_decide as Hy.
  - rewrite !kept_cons. rewrite IH by set_solver. done.
  - rewrite kept_cons. rewrite bool_decide_eq_true_2 by set_solver.
    rewrite IH by done.
    by replace ({[ key y ]} ∪ seen) with seen by set_solver.
Qed.
End keep_first.

Lemma kept_fmap {A B} (f : B -> A) (key : A -> option string) seen (l : list B) :
  f <$> kept (key ∘ f) seen l = kept key seen (f <$> l).
Proof.
  revert seen; induction l as [|y l IH]; intros seen; [done|].
  rewrite fmap_cons, !kept_cons. simpl. case_bool_decide; [apply IH|].
  rewrite fmap_cons. f_equal. apply IH.
Qed.

Lemma kept_ext {A} (key key' : A -> option string) seen (l : list A) :
  (forall x, x ∈ l -> key x = key' x) -> kept key seen l = kept key' seen l.
Proof.
  revert seen; induction l as [|y l IH]; intros seen H; [done|].
  rewrite !kept_cons. rewrite <- (H y) by by left.
  rewrite IH by (intros; apply H; by right). done.
Qed.

Lemma kept_sublist {A} (key : A -> option string) seen (l : list A) :
  kept key seen l `sublist_of` l.
Proof.
  revert seen; induction l as [|y l IH]; intros seen; [done|].
  rewrite kept_cons. case_bool_decide; [apply sublist_cons | apply sublist_skip]; apply IH.
Qed.

(** ** Lemmas: the merge on keys *)

Lemma merge_keys_unique A N :
  NoDup A.*1 -> NoDup A.*2 ->
  merge_keys A N = A ++ kept snd (key_set A.*2) (kept fst (key_set A.*1) N).
Proof.
  intros H1 H2. unfold merge_keys.
  rewrite kept_app, (kept_id fst) by (done || set_solver).
  rewrite kept_filter by set_solver.
  rewrite kept_app, (kept_id snd) by (done || set_solver).
  unfold key_set. do 3 f_equal; set_solver.
Qed.

Lemma merge_keys_NoDup A N :
  NoDup (merge_keys A N).*1 /\ NoDup (merge_keys A N).*2.
Proof.
  split; [|apply NoDup_kept].
  unfold merge_keys. set (l := kept fst ∅ _).
  apply (sublist_NoDup _ l.*1); [apply NoDup_kept | apply fmap_sublist, kept_sublist].
Qed.

Lemma merge_keys_idem A N :
  NoDup A.*1 -> NoDup A.*2 -> merge_keys (merge_keys A N) N = merge_keys A N.
Proof.
  intros H1 H2.
  destruct (merge_keys_NoDup A N) as [H1' H2'].
  rewrite (merge_keys_unique (merge_keys A N)) by done.
  rewrite (kept_all_seen snd); [by rewrite app_nil_r|].
  intros x Hx. rewrite merge_keys_unique by done. unfold key_set.
  rewrite fmap_app, list_to_set_app, elem_of_union, !elem_of_list_to_set.
  apply (kept_mono fst (key_set A.*1)) in Hx.
  - destruct (kept_covers snd (key_set A.*2) _ _ Hx) as [?|?]; [left|by right].
    by apply (elem_of_list_to_set (C:=gset (option string))).
  - rewrite merge_keys_unique by done. unfold key_set.
    rewrite fmap_app, list_to_set_app. set_solver.
Qed.

Lemma merge_keys_known_ids A N :
  NoDup A.*1 -> NoDup A.*2 -> (forall p, p ∈ N -> p.1 ∈ A.*1) -> merge_keys A N = A.
Proof.
  intros H1 H2 H. rewrite merge_keys_unique by done.
  rewrite (kept_all_seen fst); [by rewrite app_nil_r|].
  intros x Hx. apply elem_of_list_to_set. auto.
Qed.

(** monad *)
Lemma M_bind_Ok {A B} (m : M A) (k : A -> M B) l b :
  m ≫= k = (l, Ok b) ->
  exists l1 a l2, m = (l1, Ok a) /\ k a = (l2, Ok b) /\ l = l1 ++ l2.
Proof.
  destruct m as [l1 [a|e]]; unfold mbind, M_bind; [|done].
  destruct (k a) as [l2 r] eqn:Hk. intros [= <- ->]. eauto 6.
Qed.

Lemma M_bind_run {A B} (m : M A) (k : A -> M B) l1 a :
  m = (l1, Ok a) -> m ≫= k = (l1 ++ (k a).1, (k a).2).
Proof. intros ->. unfold mbind, M_bind. by destruct (k a). Qed.

Lemma result_bind_Ok {A B} (m : result A) (k : A -> result B) b :
  m ≫= k = Ok b -> exists a, m = Ok a /\ k a = Ok b.
Proof. destruct m as [a|e]; [eauto | done]. Qed.

Lemma lift_Ok {A} (r : result A) l a : lift r = (l, Ok a) -> r = Ok a /\ l = [].
Proof. unfold lift. by intros [= <- ->]. Qed.

Lemma empty_false df : empty df = false <-> rows df ≠ [] /\ columns df ≠ [].
Proof. unfold empty. destruct (rows df), (columns df); naive_solver. Qed.

Lemma empty_true df : empty df = true <-> rows df = [] \/ columns df = [].
Proof. unfold empty. destruct (rows df), (columns df); naive_solver. Qed.

Lemma has_column_true c df : has_column c df = true <-> c ∈ columns df.
Proof. unfold has_column. apply bool_decide_eq_true. Qed.

Lemma has_column_false c df : has_column c df = false <-> c ∉ columns df.
Proof. unfold has_column. apply bool_decide_eq_false. Qed.

Lemma elem_of_add_column c c' cols : c ∈ add_column c' cols <-> c = c' \/ c ∈ cols.
Proof. unfold add_column. case_bool_decide; set_solver. Qed.

Lemma select_negb_isin {A} (key : A -> option string) ids (l : list A) :
  select (negb <$> isin ids (key <$> l)) l = filter (fun x => key x ∉ ids) l.
Proof.
  induction l as [|x l IH]; [done|]. rewrite filter_cons, <- IH.
  unfold isin. rewrite !fmap_cons. simpl.
  case_bool_decide; case_decide; done.
Qed.

Lemma setitem_apply {V} c (set : V -> Row -> Row) (f : Series -> V) df :
  setitem c set (apply f df) df =
    {| columns := add_column c (columns df);
       rows := (fun r => set (f (columns df, r)) r) <$> rows df |}.
Proof.
  unfold setitem, apply. f_equal.
  rewrite zip_with_fmap_r. apply zip_with_diag.
Qed.

Lemma existsb_isna_false {A} (l : list (option A)) :
  existsb isna l = false <-> Forall (fun v => v ≠ None) l.
Proof.
  induction l as [|[a|] l IH]; simpl.
  - split; [constructor | done].
  - rewrite IH. split; [by constructor | by inversion 1].
  - split; [done | inversion 1; done].
Qed.

(** ** Lemmas: identity assignment *)

Lemma ensure_news_id_id df :
  empty df = true \/ (has_column "NewsID" df = true /\ Forall (fun r => NewsID r ≠ None) (rows df)) ->
  ensure_news_id df = df.
Proof.
  unfold ensure_news_id. intros [->|[-> H]]; [done|].
  destruct (empty df); [done|]. simpl.
  assert (existsb isna (NewsID <$> rows df) = false) as ->; [|done].
  apply existsb_isna_false, Forall_fmap. exact H.
Qed.

Lemma ensure_news_id_recompute df :
  empty df = false ->
  has_column "NewsID" df = false \/ Exists (fun r => NewsID r = None) (rows df) ->
  ensure_news_id df =
    {| columns := add_column "NewsID" (columns df);
       rows := (fun r => with_NewsID (Some (computed_news_id (columns df) r)) r) <$> rows df |}.
Proof.
  unfold ensure_news_id. intros -> H. rewrite setitem_apply.
  destruct (has_column "NewsID" df); [|done]. simpl.
  destruct H as [?|H]; [done|].
  destruct (existsb isna (NewsID <$> rows df)) eqn:E; [done|].
  apply existsb_isna_false in E. rewrite Forall_fmap, Forall_forall in E.
  apply Exists_exists in H as (r & Hr & Hn). by destruct (E r Hr).
Qed.

Lemma ensure_news_id_cases df :
  ensure_news_id df = df \/
  (empty df = false /\
   ensure_news_id df =
    {| columns := add_column "NewsID" (columns df);
       rows := (fun r => with_NewsID (Some (computed_news_id (columns df) r)) r) <$> rows df |}).
Proof.
  destruct (empty df) eqn:He; [left; apply ensure_news_id_id; by left|].
  destruct (has_column "NewsID" df) eqn:Hc.
  - destruct (decide (Forall (fun r => NewsID r ≠ None) (rows df))) as [H|H].
    + left. apply ensure_news_id_id. by right.
    + right. split; [done|]. apply ensure_news_id_recompute; [done|right].
      apply not_Forall_Exists in H; [|intros r; apply _].
      eapply Exists_impl; [done|]. simpl. intros r Hr. by destruct (NewsID r); [destruct Hr|].
  - right. split; [done|]. apply ensure_news_id_recompute; auto.
Qed.

Lemma ensure_article_key_id df :
  empty df = true \/ (has_column "ArticleKey" df = true /\ Forall (fun r => ArticleKey r ≠ None) (rows df)) ->
  ensure_article_key df = df.
Proof.
  unfold ensure_article_key. intros [->|[-> H]]; [done|].
  destruct (empty df); [done|]. simpl.
  assert (existsb isna (ArticleKey <$> rows df) = false) as ->; [|done].
  apply existsb_isna_false, Forall_fmap. exact H.
Qed.

Lemma ensure_article_key_recompute df :
  empty df = false ->
  has_column "ArticleKey" df = false \/ Exists (fun r => ArticleKey r = None) (rows df) ->
  ensure_article_key df =
    {| columns := add_column "ArticleKey" (columns df);
       rows := (fun r => with_ArticleKey (Some (computed_article_key (columns df) r)) r) <$> rows df |}.
Proof.
  unfold ensure_article_key. intros -> H. rewrite setitem_apply.
  destruct (has_column "ArticleKey" df); [|done]. simpl.
  destruct H as [?|H]; [done|].
  destruct (existsb isna (ArticleKey <$> rows df)) eqn:E; [done|].
  apply existsb_isna_false in E. rewrite Forall_fmap, Forall_forall in E.
  apply Exists_exists in H as (r & Hr & Hn). by destruct (E r Hr).
Qed.

Lemma ensure_article_key_cases df :
  ensure_article_key df = df \/
  (empty df = false /\
   ensure_article_key df =
    {| columns := add_column "ArticleKey" (columns df);
       rows := (fun r => with_ArticleKey (Some (computed_article_key (columns df) r)) r) <$> rows df |}).
Proof.
  destruct (empty df) eqn:He; [left; apply ensure_article_key_id; by left|].
  destruct (has_column "ArticleKey" df) eqn:Hc.
  - destruct (decide (Forall (fun r => ArticleKey r ≠ None) (rows df))) as [H|H].
    + left. apply ensure_article_key_id. by right.
    + right. split; [done|]. apply ensure_article_key_recompute; [done|right].
      apply not_Forall_Exists in H; [|intros r; apply _].
      eapply Exists_impl; [done|]. simpl. intros r Hr. by destruct (ArticleKey r); [destruct Hr|].
  - right. split; [done|]. apply ensure_article_key_recompute; auto.
Qed.

Lemma text_cell_NewsID r : text_cell "NewsID" r = NewsID r.
Proof. reflexivity. Qed.
Lemma text_cell_ArticleKey r : text_cell "ArticleKey" r = ArticleKey r.
Proof. reflexivity. Qed.
Lemma text_cell_url r : text_cell "url" r = url r.
Proof. reflexivity. Qed.

Lemma ids_with_NewsID v r : ids (with_NewsID v r) = (v, ArticleKey r).
Proof. reflexivity. Qed.
Lemma ids_with_ArticleKey v r : ids (with_ArticleKey v r) = (NewsID r, v).
Proof. reflexivity. Qed.

Lemma ensure_news_id_length df : length (rows (ensure_news_id df)) = length (rows df).
Proof.
  destruct (ensure_news_id_cases df) as [->|[_ ->]]; [done|]. simpl. by rewrite length_fmap.
Qed.

Lemma ensure_news_id_columns df c : c ∈ columns df -> c ∈ columns (ensure_news_id df).
Proof.
  destruct (ensure_news_id_cases df) as [->|[_ ->]]; [done|]. simpl.
  rewrite elem_of_add_column. auto.
Qed.

Lemma ensure_article_key_columns df c : c ∈ columns df -> c ∈ columns (ensure_article_key df).
Proof.
  destruct (ensure_article_key_cases df) as [->|[_ ->]]; [done|]. simpl.
  rewrite elem_of_add_column. auto.
Qed.

Lemma ensure_news_id_empty df : empty (ensure_news_id df) = empty df.
Proof.
  destruct (ensure_news_id_cases df) as [->|[He ->]]; [done|]. rewrite He.
  apply empty_false in He as [Hr Hc]. apply empty_false. simpl. split.
  - by destruct (rows df).
  - intros H. assert ("NewsID" ∈ add_column "NewsID" (columns df)) as Hin
      by (apply elem_of_add_column; auto). rewrite H in Hin. inversion Hin.
Qed.

Lemma ensure_article_key_empty df : empty (ensure_article_key df) = empty df.
Proof.
  destruct (ensure_article_key_cases df) as [->|[He ->]]; [done|]. rewrite He.
  apply empty_false in He as [Hr Hc]. apply empty_false. simpl. split.
  - by destruct (rows df).
  - intros H. assert ("ArticleKey" ∈ add_column "ArticleKey" (columns df)) as Hin
      by (apply elem_of_add_column; auto). rewrite H in Hin. inversion Hin.
Qed.

Lemma ensure_news_id_nonnull df :
  empty df = false ->
  "NewsID" ∈ columns (ensure_news_id df) /\
  Forall (fun r => NewsID r ≠ None) (rows (ensure_news_id df)).
Proof.
  intros He. destruct (has_column "NewsID" df) eqn:Hc.
  - destruct (decide (Forall (fun r => NewsID r ≠ None) (rows df))) as [H|H].
    + rewrite ensure_news_id_id by auto. by apply has_column_true in Hc.
    + rewrite ensure_news_id_recompute; [|done|].
      * simpl. split; [apply elem_of_add_column; auto|].
        apply Forall_fmap, Forall_true. done.
      * right. apply not_Forall_Exists in H; [|intros r; apply _].
        eapply Exists_impl; [done|]. simpl. intros r Hr. by destruct (NewsID r); [destruct Hr|].
  - rewrite ensure_news_id_recompute by auto.
    simpl. split; [apply elem_of_add_column; auto|].
    apply Forall_fmap, Forall_true. done.
Qed.

Lemma ensure_article_key_nonnull df :
  empty df = false ->
  "ArticleKey" ∈ columns (ensure_article_key df) /\
  Forall (fun r => ArticleKey r ≠ None) (rows (ensure_article_key df)).
Proof.
  intros He. destruct (has_column "ArticleKey" df) eqn:Hc.
  - destruct (decide (Forall (fun r => ArticleKey r ≠ None) (rows df))) as [H|H].
    + rewrite ensure_article_key_id by auto. by apply has_column_true in Hc.
    + rewrite ensure_article_key_recompute; [|done|].
      * simpl. split; [apply elem_of_add_column; auto|].
        apply Forall_fmap, Forall_true. done.
      * right. apply not_Forall_Exists in H; [|intros r; apply _].
        eapply Exists_impl; [done|]. simpl. intros r Hr. by destruct (ArticleKey r); [destruct Hr|].
  - rewrite ensure_article_key_recompute by auto.
    simpl. split; [apply elem_of_add_column; auto|].
    apply Forall_fmap, Forall_true. done.
Qed.

Lemma ensure_article_key_NewsID df :
  NewsID <$> rows (ensure_article_key df) = NewsID <$> rows df.
Proof.
  destruct (ensure_article_key_cases df) as [->|[_ ->]]; [done|]. simpl.
  rewrite <- list_fmap_compose. done.
Qed.

Lemma ensure_news_id_ArticleKey df :
  ArticleKey <$> rows (ensure_news_id df) = ArticleKey <$> rows df.
Proof.
  destruct (ensure_news_id_cases df) as [->|[_ ->]]; [done|]. simpl.
  rewrite <- list_fmap_compose. done.
Qed.

(** ** Lemmas: dedup, concatenation and column access *)

Lemma drop_duplicates_has c df :
  c ∈ columns df ->
  drop_duplicates c df =
    Ok {| columns := columns df; rows := kept (text_cell c) ∅ (rows df) |}.
Proof.
  intros Hc. unfold drop_duplicates. destruct (empty df) eqn:He.
  - apply empty_true in He as [He|He]; [|rewrite He in Hc; inversion Hc].
    destruct df as [cols l]; simpl in *. by subst.
  - apply has_column_true in Hc. by rewrite Hc.
Qed.

Lemma drop_duplicates_Ok c df df' :
  drop_duplicates c df = Ok df' ->
  columns df' = columns df /\
  ((empty df = true /\ df' = df) \/
   (empty df = false /\ c ∈ columns df /\ rows df' = kept (text_cell c) ∅ (rows df))).
Proof.
  unfold drop_duplicates. destruct (empty df) eqn:He.
  - intros [= <-]. auto.
  - destruct (has_column c df) eqn:Hc; [|done]. intros [= <-].
    apply has_column_true in Hc. split; [done|]. right. done.
Qed.

Lemma under_in cols c {A} (v : option A) : c ∈ cols -> under cols c v = v.
Proof. intros H. unfold under. by rewrite bool_decide_eq_true_2. Qed.

Lemma under_notin cols c {A} (v : option A) : c ∉ cols -> under cols c v = None.
Proof. intros H. unfold under. by rewrite bool_decide_eq_false_2. Qed.

Lemma ids_reindex cols r :
  "NewsID" ∈ cols -> "ArticleKey" ∈ cols -> ids (reindex cols r) = ids r.
Proof. intros H1 H2. unfold ids; simpl. by rewrite !under_in. Qed.

Lemma elem_of_union_columns c cols1 cols2 :
  c ∈ union_columns cols1 cols2 <-> c ∈ cols1 \/ c ∈ cols2.
Proof.
  unfold union_columns. rewrite elem_of_app, list_elem_of_filter.
  destruct (decide (c ∈ cols1)); naive_solver.
Qed.

Lemma elem_of_foldl_union c acc (l : list (list string)) :
  c ∈ foldl union_columns acc l <-> c ∈ acc \/ exists cols, cols ∈ l /\ c ∈ cols.
Proof.
  revert acc; induction l as [|x l IH]; intros acc; simpl.
  - split; [auto | intros [?|(? & H & _)]; [done | inversion H]].
  - rewrite IH, elem_of_union_columns. split.
    + intros [[?|?]|(cols & ? & ?)]; [auto | right; exists x; split; [left|done]
                                      | right; exists cols; split; [by right|done]].
    + intros [?|(cols & [->|?]%elem_of_cons & ?)]; [auto | auto | right; eauto].
Qed.

Lemma concat_Ok dfs C :
  concat dfs = Ok C ->
  dfs ≠ [] /\
  columns C = foldl union_columns [] (columns <$> dfs) /\
  rows C = dfs ≫= (fun df => reindex (columns df) <$> rows df).
Proof. destruct dfs; [done|]. intros [= <-]. done. Qed.

Lemma concat_cons df dfs : exists C, concat (df :: dfs) = Ok C.
Proof. eexists. reflexivity. Qed.

Lemma elem_of_concat_columns dfs C c :
  concat dfs = Ok C -> c ∈ columns C <-> exists df, df ∈ dfs /\ c ∈ columns df.
Proof.
  intros (_ & -> & _)%concat_Ok. rewrite elem_of_foldl_union. split.
  - intros [H|(cols & (df & -> & ?)%list_elem_of_fmap & ?)]; [inversion H | eauto].
  - intros (df & ? & ?). right. exists (columns df). split; [|done].
    apply list_elem_of_fmap. eauto.
Qed.

Lemma getitem_has c df :
  c ∈ columns df -> getitem c df = Ok (text_cell c <$> rows df).
Proof. intros H. unfold getitem. apply has_column_true in H. by rewrite H. Qed.

Lemma getitem_Ok c df col :
  getitem c df = Ok col -> c ∈ columns df /\ col = text_cell c <$> rows df.
Proof.
  unfold getitem. destruct (has_column c df) eqn:H; [|done].
  apply has_column_true in H. by intros [= <-].
Qed.

(** ** Lemmas: sentiment enrichment *)

Section sentiment.
Context (sia : string -> gmap string Q).

Lemma sentiment_for_text_eq text :
  _sentiment_for_text sia (Some text) =
    (sentiment_calls sia text, Ok (sentiment_value sia text)).
Proof.
  unfold sentiment_calls, sentiment_value, _sentiment_for_text.
  destruct (negb (PyStr.truthy text) || negb (PyStr.truthy (PyStr.strip text))); done.
Qed.

Lemma score_rows_eq tc (l : list Series) :
  score_rows sia tc l =
    (l ≫= (fun row => sentiment_calls sia (row_text tc row)),
     Ok ((fun row => (sentiment_value sia (row_text tc row)).1) <$> l,
         (fun row => (sentiment_value sia (row_text tc row)).2) <$> l)).
Proof.
  induction l as [|row l IH]; [done|].
  cbn [score_rows]. rewrite sentiment_for_text_eq, IH.
  destruct (sentiment_value sia (row_text tc row)) as [s lab] eqn:E.
  cbn. rewrite app_nil_r, E. done.
Qed.

Lemma loc_set_rows_fmap {V} (set : V -> Row -> Row) (p : Row -> bool)
    (g : Row -> V) (h : Row -> Row) (l : list Row) :
  loc_set_rows set (p <$> l) (g <$> select (p <$> l) l) (h <$> l) =
    (fun r => if p r then set (g r) (h r) else h r) <$> l.
Proof.
  induction l as [|r l IH]; [done|].
  rewrite !fmap_cons. cbn [select loc_set_rows]. destruct (p r).
  - rewrite fmap_cons. cbn [loc_set_rows]. by rewrite IH.
  - by rewrite IH.
Qed.

Lemma select_bind {A B} (p : A -> bool) (f : A -> list B) (l : list A) :
  select (p <$> l) l ≫= f = l ≫= (fun x => if p x then f x else []).
Proof.
  induction l as [|x l IH]; [done|].
  rewrite fmap_cons. cbn [select]. rewrite (bind_cons _ x l).
  destruct (p x); [rewrite bind_cons|]; by rewrite IH.
Qed.
End sentiment.

Lemma add_column_in c cols : c ∈ cols -> add_column c cols = cols.
Proof. intros H. unfold add_column. by rewrite bool_decide_eq_true_2. Qed.

Lemma create_sentiment_columns_columns df c :
  c ∈ columns (create_sentiment_columns df) <->
  c ∈ columns df \/ c = "sentiment_score" \/ c = "sentiment_label".
Proof.
  unfold create_sentiment_columns.
  destruct (has_column "sentiment_score" df) eqn:H1.
  - apply has_column_true in H1.
    destruct (has_column "sentiment_label" df) eqn:H2.
    + apply has_column_true in H2. naive_solver.
    + simpl. rewrite elem_of_add_column. naive_solver.
  - destruct (has_column "sentiment_label" _) eqn:H2.
    + apply has_column_true in H2. simpl in *. rewrite elem_of_add_column in *. naive_solver.
    + simpl. rewrite !elem_of_add_column. naive_solver.
Qed.

Lemma create_sentiment_columns_rows df :
  exists f : Row -> Row,
    rows (create_sentiment_columns df) = f <$> rows df /\
    (forall r, ids (f r) = ids r) /\
    (well_formed df -> forall r, r ∈ rows df -> f r = r).
Proof.
  unfold create_sentiment_columns.
  exists (fun r =>
    (if has_column "sentiment_label"
          (if has_column "sentiment_score" df then df
           else setitem_scalar "sentiment_score" with_score None df)
     then id else with_label None)
      ((if has_column "sentiment_score" df then id else with_score None) r)).
  split; [|split].
  - destruct (has_column "sentiment_score" df); simpl;
      destruct (has_column "sentiment_label" _); simpl;
      rewrite <- ?list_fmap_compose; by rewrite ?list_fmap_id.
  - intros r. destruct (has_column "sentiment_score" df); simpl;
      destruct (has_column "sentiment_label" _); done.
  - intros Hwf r Hr. unfold well_formed in Hwf. rewrite Forall_forall in Hwf.
    specialize (Hwf r Hr).
    assert (has_column "sentiment_score" df = false -> with_score None r = r) as Hs.
    { intros Hc%has_column_false.
      apply (f_equal sentiment_score) in Hwf. simpl in Hwf.
      rewrite under_notin in Hwf by done.
      destruct r; simpl in *; subst; reflexivity. }
    assert (forall df', columns df' = columns df \/
                        columns df' = add_column "sentiment_score" (columns df) ->
              has_column "sentiment_label" df' = false -> with_label None r = r) as Hl.
    { intros df' Hcols Hc%has_column_false.
      assert ("sentiment_label" ∉ columns df) as Hn.
      { destruct Hcols as [<-|E]; [done|]. rewrite E, elem_of_add_column in Hc. naive_solver. }
      apply (f_equal sentiment_label) in Hwf. simpl in Hwf.
      rewrite under_notin in Hwf by done.
      destruct r; simpl in *; subst; reflexivity. }
    destruct (has_column "sentiment_score" df) eqn:H1; simpl.
    + destruct (has_column "sentiment_label" df) eqn:H2; simpl; [done|].
      by apply (Hl df); auto.
    + rewrite Hs by done.
      destruct (has_column "sentiment_label" _) eqn:H2; simpl; [done|].
      eapply Hl; [|exact H2]. right. done.
Qed.

Lemma ensure_sentiment_run sia df :
  ensure_sentiment sia df =
    if empty df then ([], Ok df)
    else
      let df2 := create_sentiment_columns df in
      if negb (existsb id ((fun r => isna (sentiment_score r)) <$> rows df2))
      then ([], Ok df2)
      else
        match filter (fun c => c ∉ columns df2) default_text_columns with
        | c :: _ => ([], Raise (KeyError c))
        | [] => (rows df2 ≫= missing_calls sia,
                 Ok {| columns := columns df2;
                       rows := enrich_if_missing sia <$> rows df2 |})
        end.
Proof.
  unfold ensure_sentiment, ensure_sentiment_with.
  destruct (empty df); [done|].
  set (df2 := create_sentiment_columns df). cbv zeta.
  destruct (negb _); [done|].
  unfold loc. destruct (filter _ default_text_columns) as [|c ?]; [|done].
  unfold lift. cbn [mbind M_bind columns rows].
  rewrite score_rows_eq. cbn [mbind M_bind mret M_ret].
  rewrite app_nil_r. cbn [app]. f_equal.
  - rewrite !list_fmap_bind.
    rewrite (select_bind (fun r => isna (sentiment_score r))).
    apply list_bind_ext; [|done]. intros r. unfold missing_calls, composed. simpl.
    by destruct (isna (sentiment_score r)).
  - f_equal. unfold loc_set. cbn [columns rows]. f_equal.
    + assert ("sentiment_score" ∈ columns df2) as H1
        by (apply create_sentiment_columns_columns; auto).
      assert ("sentiment_label" ∈ columns df2) as H2
        by (apply create_sentiment_columns_columns; auto).
      by rewrite (add_column_in "sentiment_score"), add_column_in.
    + rewrite <- !list_fmap_compose.
      match goal with
      | |- context [loc_set_rows with_score (?p <$> ?l) (?g <$> _) ?l] =>
          pose proof (loc_set_rows_fmap with_score p g id l) as E1
      end.
      rewrite list_fmap_id in E1. rewrite E1.
      rewrite (loc_set_rows_fmap with_label (fun r => isna (sentiment_score r))).
      apply list_fmap_ext. intros _ r _. unfold enrich_if_missing, enrich, composed. simpl.
      by destruct (isna (sentiment_score r)).
Qed.

Lemma ids_enrich_if_missing sia r : ids (enrich_if_missing sia r) = ids r.
Proof. unfold enrich_if_missing. by destruct (isna _). Qed.

Lemma existsb_isna_score_false (l : list Row) :
  existsb id ((fun r => isna (sentiment_score r)) <$> l) = false ->
  Forall (fun r => isna (sentiment_score r) = false) l.
Proof.
  induction l as [|r l IH]; [constructor|]. rewrite fmap_cons. simpl.
  intros [H1 H2]%orb_false_iff. constructor; auto.
Qed.

Lemma enrich_if_missing_scored sia (l : list Row) :
  Forall (fun r => isna (sentiment_score r) = false) l ->
  enrich_if_missing sia <$> l = l /\ l ≫= missing_calls sia = [].
Proof.
  induction 1 as [|r l Hr _ [IH1 IH2]]; [done|].
  rewrite fmap_cons, bind_cons, IH1, IH2. unfold enrich_if_missing, missing_calls.
  by rewrite Hr.
Qed.

Lemma ensure_sentiment_total sia df :
  (forall c, c ∈ default_text_columns -> c ∈ columns df) ->
  exists df',
    ensure_sentiment sia df =
      (rows (create_sentiment_columns df) ≫= missing_calls sia, Ok df') /\
    rows df' = enrich_if_missing sia <$> rows (create_sentiment_columns df) /\
    (forall c, c ∈ columns df -> c ∈ columns df').
Proof.
  intros Htc. rewrite ensure_sentiment_run.
  destruct (create_sentiment_columns_rows df) as (f & Hf & _).
  destruct (empty df) eqn:He.
  - apply empty_true in He as [He|He].
    + exists df. rewrite Hf, He. done.
    + specialize (Htc "title"). rewrite He in Htc.
      exfalso. eapply not_elem_of_nil, Htc. unfold default_text_columns. set_solver.
  - cbv zeta. destruct (negb _) eqn:Hn.
    + apply negb_true_iff, existsb_isna_score_false in Hn.
      destruct (enrich_if_missing_scored sia _ Hn) as [-> ->].
      eexists; split; [done|]. split; [done|].
      intros c Hc. apply create_sentiment_columns_columns. auto.
    + destruct (filter _ default_text_columns) as [|c l] eqn:Hfil.
      * eexists; split; [done|]. split; [done|]. simpl.
        intros c Hc. apply create_sentiment_columns_columns. auto.
      * assert (c ∈ filter (fun c => c ∉ columns (create_sentiment_columns df))
                      default_text_columns) as Hc by (rewrite Hfil; by left).
        apply list_elem_of_filter in Hc as [Hc1 Hc2]. destruct Hc1.
        apply create_sentiment_columns_columns. auto.
Qed.

Lemma ensure_sentiment_Ok sia df log df' :
  ensure_sentiment sia df = (log, Ok df') ->
  ids <$> rows df' = ids <$> rows df /\
  (forall c, c ∈ columns df -> c ∈ columns df').
Proof.
  rewrite ensure_sentiment_run.
  destruct (create_sentiment_columns_rows df) as (f & Hf & Hids & _).
  assert (ids <$> rows (create_sentiment_columns df) = ids <$> rows df) as Hids2.
  { rewrite Hf, <- list_fmap_compose. apply list_fmap_ext. intros; apply Hids. }
  destruct (empty df); [by intros [= <- <-]|]. cbv zeta.
  destruct (negb _).
  - intros [= <- <-]. split; [done|].
    intros c Hc. apply create_sentiment_columns_columns. auto.
  - destruct (filter _ default_text_columns); [|done]. intros [= <- <-]. simpl. split.
    + rewrite <- Hids2, <- list_fmap_compose. apply list_fmap_ext.
      intros; apply ids_enrich_if_missing.
    + intros c Hc. apply create_sentiment_columns_columns. auto.
Qed.

Lemma ensure_sentiment_rows sia df :
  well_formed df ->
  (forall c, c ∈ default_text_columns -> c ∈ columns df) ->
  exists df',
    ensure_sentiment sia df = (rows df ≫= missing_calls sia, Ok df') /\
    rows df' = enrich_if_missing sia <$> rows df.
Proof.
  intros Hwf Htc.
  destruct (ensure_sentiment_total sia df Htc) as (df' & Hrun & Hrows & _).
  destruct (create_sentiment_columns_rows df) as (f & Hf & _ & Hid).
  assert (rows (create_sentiment_columns df) = rows df) as E.
  { rewrite Hf. rewrite <- (list_fmap_id (rows df)) at 2.
    apply list_fmap_ext. intros i r Hr. apply (Hid Hwf).
    apply list_elem_of_lookup. eauto. }
  exists df'. by rewrite Hrun, Hrows, E.
Qed.

(** ** Lemmas: the run of [main] on an archive *)

Lemma filter_fmap_ids (P : keypair -> Prop) `{!forall p, Decision (P p)} (l : list Row) :
  filter P (ids <$> l) = ids <$> filter (fun r => P (ids r)) l.
Proof.
  induction l as [|r l IH]; [done|].
  rewrite fmap_cons, !filter_cons, IH. by case_decide.
Qed.

Lemma ids_kept_NewsID seen (l : list Row) :
  ids <$> kept (text_cell "NewsID") seen l = kept fst seen (ids <$> l).
Proof. rewrite <- kept_fmap. f_equal. Qed.

Lemma ids_kept_ArticleKey seen (l : list Row) :
  ids <$> kept (text_cell "ArticleKey") seen l = kept snd seen (ids <$> l).
Proof. rewrite <- kept_fmap. f_equal. Qed.

Lemma archive_schema_keys file :
  (forall c, c ∈ archive_schema -> c ∈ columns file) ->
  "NewsID" ∈ columns file /\ "ArticleKey" ∈ columns file /\
  (forall c, c ∈ default_text_columns -> c ∈ columns file).
Proof.
  intros H. split; [|split].
  - apply H. unfold archive_schema. set_solver.
  - apply H. unfold archive_schema. set_solver.
  - intros c Hc. apply H. unfold archive_schema, default_text_columns in *. set_solver.
Qed.

Lemma ensure_keys_archive A :
  archive_ok A -> ensure_news_id A = A /\ ensure_article_key A = A.
Proof.
  intros [Hc Hr]. destruct (archive_schema_keys _ Hc) as (H1 & H2 & _). split.
  - apply ensure_news_id_id. right. split; [by apply has_column_true|].
    eapply Forall_impl; [done|]. naive_solver.
  - apply ensure_article_key_id. right. split; [by apply has_column_true|].
    eapply Forall_impl; [done|]. naive_solver.
Qed.

Lemma read_csv_archive file :
  archive_ok file ->
  exists A, read_csv file = Ok A /\ archive_ok A /\ ids <$> rows A = ids <$> rows file.
Proof.
  intros [Hc Hr]. destruct (archive_schema_keys _ Hc) as (H1 & H2 & _).
  unfold read_csv. destruct (columns file) as [|c cols] eqn:E; [inversion H1|].
  eexists; split; [reflexivity|]. rewrite <- E.
  assert (forall r, ids (reindex (columns file) r) = ids r) as Hids
    by (intros; apply ids_reindex; by rewrite E).
  split; [split|]; simpl.
  - by rewrite E.
  - apply Forall_fmap. eapply Forall_impl; [done|]. intros r Hn.
    specialize (Hids r). unfold ids in Hids. simpl in *. by injection Hids as -> ->.
  - rewrite <- list_fmap_compose. apply list_fmap_ext. intros; apply Hids.
Qed.

Lemma nonnull_ids_subseteq (l l' : list Row) :
  Forall (fun r => NewsID r ≠ None /\ ArticleKey r ≠ None) l ->
  ids <$> l' ⊆ ids <$> l ->
  Forall (fun r => NewsID r ≠ None /\ ArticleKey r ≠ None) l'.
Proof.
  intros H Hsub. apply Forall_forall. intros r' Hr'.
  assert (ids r' ∈ ids <$> l) as (r & Heq & Hr)%list_elem_of_fmap
    by (apply Hsub, list_elem_of_fmap; eauto).
  rewrite Forall_forall in H. specialize (H r Hr).
  unfold ids in Heq. by injection Heq as -> ->.
Qed.

Lemma dedup_pass_has F :
  "NewsID" ∈ columns F -> "ArticleKey" ∈ columns F ->
  dedup_pass F =
    Ok {| columns := columns F;
          rows := kept (text_cell "ArticleKey") ∅ (kept (text_cell "NewsID") ∅ (rows F)) |}.
Proof.
  intros H1 H2. unfold dedup_pass. rewrite drop_duplicates_has by done.
  cbn [mbind result_bind]. by rewrite drop_duplicates_has.
Qed.

Lemma dedup_and_save_ok sia F :
  archive_ok F ->
  exists log saved,
    dedup_and_save sia F = (log, Ok saved) /\
    ids <$> rows saved = kept snd ∅ (kept fst ∅ (ids <$> rows F)) /\
    archive_ok saved.
Proof.
  intros HF. pose proof HF as [Hc Hr].
  destruct (archive_schema_keys _ Hc) as (H1 & H2 & Htc).
  unfold dedup_and_save. destruct (ensure_keys_archive _ HF) as [_ ->].
  rewrite dedup_pass_has by done.
  set (F2 := {| columns := columns F; rows := _ |}).
  destruct (ensure_sentiment_total sia F2 Htc) as (saved & Hrun & Hrows & Hcols).
  destruct (ensure_sentiment_Ok _ _ _ _ Hrun) as [Hids _].
  unfold lift. cbn [mbind M_bind print]. rewrite Hrun. cbn [mret M_ret].
  eexists _, saved. split; [reflexivity|].
  assert (ids <$> rows saved = kept snd ∅ (kept fst ∅ (ids <$> rows F))) as Hk.
  { rewrite Hids. unfold F2. simpl. by rewrite ids_kept_ArticleKey, ids_kept_NewsID. }
  split; [done|]. split.
  - intros c Hcs. apply Hcols. simpl. auto.
  - eapply nonnull_ids_subseteq; [exact Hr|]. rewrite Hk.
    intros p Hp. apply elem_of_kept in Hp as [Hp _]. by apply elem_of_kept in Hp as [Hp _].
Qed.

Lemma ensured_complete C :
  let N := ensure_article_key (ensure_news_id C) in
  empty N = false ->
  "NewsID" ∈ columns N /\ "ArticleKey" ∈ columns N /\
  Forall (fun r => NewsID r ≠ None /\ ArticleKey r ≠ None) (rows N).
Proof.
  intros N HN. unfold N in *.
  rewrite ensure_article_key_empty in HN.
  pose proof HN as HC. rewrite ensure_news_id_empty in HC.
  destruct (ensure_news_id_nonnull C HC) as [H1 H1'].
  destruct (ensure_article_key_nonnull _ HN) as [H2 H2'].
  split; [by apply ensure_article_key_columns|]. split; [done|].
  apply Forall_forall. intros r Hr. split.
  - assert (NewsID r ∈ NewsID <$> rows (ensure_article_key (ensure_news_id C))) as Hin
      by (apply list_elem_of_fmap; eauto).
    rewrite ensure_article_key_NewsID in Hin.
    apply list_elem_of_fmap in Hin as (r' & -> & Hr').
    rewrite Forall_forall in H1'. by apply H1'.
  - rewrite Forall_forall in H2'. by apply H2'.
Qed.

Lemma new_frame_complete all_dfs :
  all_dfs ≠ [] ->
  "NewsID" ∈ columns (new_frame all_dfs) ->
  rows (new_frame all_dfs) ≠ [] ->
  "ArticleKey" ∈ columns (new_frame all_dfs) /\
  Forall (fun r => NewsID r ≠ None /\ ArticleKey r ≠ None) (rows (new_frame all_dfs)).
Proof.
  intros Hne Hc Hr. unfold new_frame in *.
  destruct all_dfs as [|df dfs]; [done|].
  destruct (concat_cons df dfs) as [C HC]. rewrite HC in *.
  apply ensured_complete. apply empty_false. split; [done|].
  intros E. rewrite E in Hc. inversion Hc.
Qed.

Lemma build_or_load_archive all_dfs file :
  archive_ok file ->
  (all_dfs ≠ [] -> "NewsID" ∈ columns (new_frame all_dfs)) ->
  exists log F,
    build_or_load all_dfs (Some file) = (log, Ok (Some F)) /\
    archive_ok F /\
    ids <$> rows F =
      (ids <$> rows file) ++
      filter (fun p => p.1 ∉ key_set (ids <$> rows file).*1) (batch_keys all_dfs).
Proof.
  intros Hfile Hnew.
  destruct (read_csv_archive _ Hfile) as (A & Hread & HA & Hids).
  destruct (ensure_keys_archive _ HA) as [E1 E2].
  pose proof HA as [HAc HAr]. destruct (archive_schema_keys _ HAc) as (HA1 & HA2 & _).
  unfold build_or_load. destruct all_dfs as [|df dfs].
  - rewrite Hread. unfold lift. cbn [mbind M_bind print mret M_ret].
    rewrite E1, E2. eexists _, A. split; [reflexivity|]. split; [done|].
    simpl. by rewrite filter_nil, app_nil_r.
  - specialize (Hnew ltac:(done)).
    assert (df :: dfs ≠ []) as Hne by done.
    pose proof (new_frame_complete _ Hne Hnew) as HN.
    unfold batch_keys. unfold new_frame in *.
    destruct (concat_cons df dfs) as [C HC]. rewrite HC in *.
    rewrite Hread. unfold lift. cbn [mbind M_bind print mret M_ret].
    rewrite E1, E2.
    remember (ensure_article_key (ensure_news_id C)) as N eqn:HeqN. clear HeqN.
    rewrite !getitem_has by done. cbn [mbind M_bind print mret M_ret].
    unfold getitem_mask. cbn [rows columns].
    rewrite (select_negb_isin (text_cell "NewsID")).
    remember (list_to_set (text_cell "NewsID" <$> rows A) : gset (option string))
      as ids_A eqn:HeqA.
    remember (filter (fun x => text_cell "NewsID" x ∉ ids_A) (rows N))
      as new_only eqn:Heqn.
    assert (ids <$> new_only =
            filter (fun p => p.1 ∉ key_set (ids <$> rows file).*1) (ids <$> rows N)) as Hfil.
    { rewrite filter_fmap_ids. subst new_only. f_equal.
      apply list_filter_iff. intros r. subst ids_A. unfold key_set.
      rewrite <- Hids, <- list_fmap_compose. done. }
    destruct (Nat.eqb (length new_only) 0) eqn:Hlen.
    + eexists _, A. split; [reflexivity|]. split; [done|].
      apply Nat.eqb_eq, nil_length_inv in Hlen.
      rewrite <- Hfil, Hlen, app_nil_r. done.
    + apply Nat.eqb_neq in Hlen.
      assert (rows N ≠ []) as HNr.
      { intros E. apply Hlen. subst new_only. by rewrite E. }
      destruct (HN HNr) as [HN2 HNn].
      eexists _, _. split; [reflexivity|]. cbn [rows columns].
      rewrite bind_cons, bind_singleton. cbn [rows columns].
      assert (forall r, ids (reindex (columns A) r) = ids r) as Hre1
        by (intros; by apply ids_reindex).
      assert (forall r, ids (reindex (columns N) r) = ids r) as Hre2
        by (intros; by apply ids_reindex).
      assert (ids <$> (reindex (columns A) <$> rows A) ++
                      (reindex (columns N) <$> new_only) =
              (ids <$> rows A) ++ (ids <$> new_only)) as Hcat.
      { rewrite fmap_app, <- !list_fmap_compose. f_equal; apply list_fmap_ext; intros; simpl; auto. }
      split; [split|].
      * intros c Hc. apply elem_of_foldl_union. right. exists (columns A).
        split; [|by apply HAc].
        apply list_elem_of_fmap. eexists; split; [reflexivity|by left].
      * cbn [rows]. eapply nonnull_ids_subseteq with (l := rows A ++ rows N).
        { apply Forall_app. done. }
        rewrite Hcat, fmap_app. intros p [Hp|Hp]%elem_of_app; apply elem_of_app; [by left|].
        right. rewrite Hfil in Hp. by apply list_elem_of_filter in Hp as [_ Hp].
      * cbn [rows]. rewrite Hcat, Hfil, Hids. done.
Qed.

Lemma merge_and_save_archive sia all_dfs file :
  archive_ok file ->
  (all_dfs ≠ [] -> "NewsID" ∈ columns (new_frame all_dfs)) ->
  exists log saved,
    merge_and_save sia all_dfs (Some file) = (log, Ok (Some saved)) /\
    ids <$> rows saved = merge_keys (ids <$> rows file) (batch_keys all_dfs) /\
    archive_ok saved.
Proof.
  intros Hfile Hnew.
  destruct (build_or_load_archive _ _ Hfile Hnew) as (l1 & F & Hb & HF & Hids).
  destruct (dedup_and_save_ok sia F HF) as (l2 & saved & Hd & Hk & Hs).
  unfold merge_and_save. rewrite Hb. cbn [mbind M_bind]. rewrite Hd. cbn [mret M_ret].
  eexists _, saved. split; [reflexivity|]. split; [|done].
  rewrite Hk, Hids. done.
Qed.

Lemma merge_and_save_batch_column sia all_dfs file log saved :
  merge_and_save sia all_dfs (Some file) = (log, Ok (Some saved)) ->
  all_dfs ≠ [] -> "NewsID" ∈ columns (new_frame all_dfs).
Proof.
  intros Hrun Hne. unfold merge_and_save in Hrun.
  apply M_bind_Ok in Hrun as (l1 & F & l2 & Hb & _ & _).
  unfold build_or_load in Hb. destruct all_dfs as [|df dfs]; [done|].
  unfold new_frame. destruct (concat_cons df dfs) as [C HC]. rewrite HC in *.
  apply M_bind_Ok in Hb as (? & C' & ? & [[= <-] _]%lift_Ok & Hb & _).
  apply M_bind_Ok in Hb as (? & A & ? & _ & Hb & _).
  apply M_bind_Ok in Hb as (? & col & ? & _ & Hb & _).
  apply M_bind_Ok in Hb as (? & col' & ? & [Hg _]%lift_Ok & _ & _).
  by apply getitem_Ok in Hg as [Hg _].
Qed.

Lemma main_Ok sia fetch db log out :
  main sia fetch db = (log, Ok out) ->
  exists l0 all_dfs l1,
    fetch_per_ticker fetch TICKERS false [] = (l0, Ok all_dfs) /\
    merge_and_save sia all_dfs db = (l1, Ok out) /\ log = l0 ++ l1.
Proof. unfold main. apply M_bind_Ok. Qed.

Lemma main_run sia fetch db l0 all_dfs :
  fetch_per_ticker fetch TICKERS false [] = (l0, Ok all_dfs) ->
  main sia fetch db =
    (l0 ++ (merge_and_save sia all_dfs db).1, (merge_and_save sia all_dfs db).2).
Proof.
  intros H. unfold main. rewrite H. cbn [mbind M_bind].
  by destruct (merge_and_save sia all_dfs db).
Qed.

Lemma main_rerun_same_keys sia fetch file log1 R1 :
  archive_ok file ->
  NoDup (NewsID <$> rows file) -> NoDup (ArticleKey <$> rows file) ->
  main sia fetch (Some file) = (log1, Ok (Some R1)) ->
  exists log2 R2,
    main sia fetch (Some R1) = (log2, Ok (Some R2)) /\
    ids <$> rows R2 = ids <$> rows R1.
Proof.
  intros Hfile Hn1 Hn2 Hrun.
  apply main_Ok in Hrun as (l0 & all_dfs & l1 & Hfetch & Hm & ->).
  pose proof (merge_and_save_batch_column _ _ _ _ _ Hm) as Hnew.
  destruct (merge_and_save_archive sia _ _ Hfile Hnew) as (l1' & R1' & Hm' & Hk1 & HR1).
  rewrite Hm in Hm'. injection Hm' as -> <-.
  destruct (merge_and_save_archive sia _ _ HR1 Hnew) as (l2 & R2 & Hm2 & Hk2 & _).
  exists (l0 ++ l2), R2. split.
  - rewrite (main_run _ _ _ _ _ Hfetch), Hm2. done.
  - rewrite Hk2, Hk1. apply merge_keys_idem.
    + by rewrite <- list_fmap_compose.
    + by rewrite <- list_fmap_compose.
Qed.

(** ** Lemmas: the keys of what [main] saves *)

Lemma proper_empty df : proper df -> empty df = true -> rows df = [].
Proof. intros Hp [?|?]%empty_true; auto. Qed.

Lemma proper_ensure_news_id df : proper df -> proper (ensure_news_id df).
Proof.
  intros Hp. destruct (ensure_news_id_cases df) as [->|[_ ->]]; [done|].
  intros H. simpl in H. assert ("NewsID" ∈ add_column "NewsID" (columns df)) as Hin
    by (apply elem_of_add_column; auto). rewrite H in Hin. inversion Hin.
Qed.

Lemma proper_ensure_article_key df : proper df -> proper (ensure_article_key df).
Proof.
  intros Hp. destruct (ensure_article_key_cases df) as [->|[_ ->]]; [done|].
  intros H. simpl in H. assert ("ArticleKey" ∈ add_column "ArticleKey" (columns df)) as Hin
    by (apply elem_of_add_column; auto). rewrite H in Hin. inversion Hin.
Qed.

Lemma proper_concat dfs C : Forall proper dfs -> concat dfs = Ok C -> proper C.
Proof.
  intros Hp HC Hcols. pose proof (concat_Ok _ _ HC) as (_ & _ & ->).
  assert (forall df, df ∈ dfs -> rows df = []) as Hr.
  { intros df Hdf. rewrite Forall_forall in Hp. apply (Hp df Hdf).
    destruct (columns df) as [|c cols] eqn:E; [done|].
    assert (c ∈ columns C) as Hc.
    { apply (elem_of_concat_columns _ _ _ HC). exists df. rewrite E. split; [done|by left]. }
    rewrite Hcols in Hc. inversion Hc. }
  clear -Hr. induction dfs as [|df dfs IH]; [done|].
  rewrite bind_cons, (Hr df) by (by left). simpl. apply IH.
  intros; apply Hr; by right.
Qed.

Lemma proper_read_csv file A : read_csv file = Ok A -> proper A.
Proof.
  unfold read_csv. destruct (columns file) eqn:E; [done|]. intros [= <-]. done.
Qed.

Lemma dedup_pass_NoDup F F2 :
  proper F -> dedup_pass F = Ok F2 ->
  NoDup (NewsID <$> rows F2) /\ NoDup (ArticleKey <$> rows F2).
Proof.
  intros Hp H. unfold dedup_pass in H.
  apply result_bind_Ok in H as (Fa & Ha & H2).
  apply drop_duplicates_Ok in Ha as [Hca [[He ->]|(He & _ & Hra)]].
  - apply drop_duplicates_Ok in H2 as [_ [[_ ->]|(He2 & _ & _)]]; [|congruence].
    rewrite (proper_empty _ Hp He). split; constructor.
  - assert (NoDup (NewsID <$> rows Fa)) as Hn
      by (rewrite Hra; apply (NoDup_kept (text_cell "NewsID"))).
    apply drop_duplicates_Ok in H2 as [_ [[He2 ->]|(He2 & _ & Hr2)]].
    + split; [done|]. apply empty_true in He2 as [->|E]; [constructor|].
      apply empty_false in He as [_ ?]. congruence.
    + rewrite Hr2. split; [|apply (NoDup_kept (text_cell "ArticleKey"))].
      eapply sublist_NoDup; [exact Hn|]. apply fmap_sublist, kept_sublist.
Qed.

Lemma fmap_ids_keys (l l' : list Row) :
  ids <$> l = ids <$> l' ->
  NewsID <$> l = NewsID <$> l' /\ ArticleKey <$> l = ArticleKey <$> l'.
Proof.
  intros H. split.
  - apply (f_equal (fmap fst)) in H. by rewrite <- !list_fmap_compose in H.
  - apply (f_equal (fmap snd)) in H. by rewrite <- !list_fmap_compose in H.
Qed.

Lemma dedup_and_save_NoDup sia F log saved :
  proper F -> dedup_and_save sia F = (log, Ok saved) ->
  NoDup (NewsID <$> rows saved) /\ NoDup (ArticleKey <$> rows saved).
Proof.
  intros Hp H. unfold dedup_and_save in H.
  apply M_bind_Ok in H as (? & F2 & ? & [Hd _]%lift_Ok & H & _).
  apply M_bind_Ok in H as (? & [] & ? & _ & H & _).
  apply M_bind_Ok in H as (? & F3 & ? & Hs & H & _).
  apply M_bind_Ok in H as (? & [] & ? & _ & H & _).
  injection H as _ <-.
  apply ensure_sentiment_Ok in Hs as [Hids _].
  apply fmap_ids_keys in Hids as [-> ->].
  eapply dedup_pass_NoDup; [|done]. by apply proper_ensure_article_key.
Qed.

Lemma kept_cons_empty {A} (key : A -> option string) x l :
  kept key ∅ (x :: l) = x :: kept key {[ key x ]} l.
Proof.
  rewrite kept_cons, bool_decide_eq_false_2 by set_solver.
  f_equal. f_equal. set_solver.
Qed.

Lemma fetch_news_for_ticker_run fetch ticker articles :
  fetch ticker = Ok articles ->
  fetch_news_for_ticker fetch ticker = Ok (fetched_frame ticker articles).
Proof.
  intros H. unfold fetch_news_for_ticker. rewrite H. cbn [mbind result_bind].
  destruct articles as [|a l]; [done|].
  set (recs := record_of_article ticker <$> a :: l).
  assert (empty (DataFrame_of_records recs) = false) as -> by done.
  cbn [negb]. rewrite drop_duplicates_has by (simpl; set_solver).
  cbn [mbind result_bind mret result_ret].
  assert (kept (text_cell "url") ∅ (rows (DataFrame_of_records recs)) =
          record_of_article ticker <$> kept a_url ∅ (a :: l)) as ->.
  { unfold recs, DataFrame_of_records. cbn [rows]. rewrite <- kept_fmap. reflexivity. }
  f_equal. rewrite ensure_news_id_recompute.
  - unfold fetched_frame. f_equal. cbn [rows columns].
    rewrite <- list_fmap_compose. apply list_fmap_ext. intros _ x _. reflexivity.
  - apply empty_false. cbn [rows columns]. by rewrite kept_cons_empty.
  - left. reflexivity.
Qed.

Lemma fetch_news_for_ticker_Ok fetch ticker df :
  fetch_news_for_ticker fetch ticker = Ok df ->
  exists articles, fetch ticker = Ok articles /\ df = fetched_frame ticker articles.
Proof.
  intros H. destruct (fetch ticker) as [articles|e] eqn:E.
  - rewrite (fetch_news_for_ticker_run _ _ _ E) in H. injection H as <-. eauto.
  - unfold fetch_news_for_ticker in H. by rewrite E in H.
Qed.

Lemma proper_fetched_frame ticker articles : proper (fetched_frame ticker articles).
Proof. by destruct articles. Qed.

Lemma fetch_per_ticker_proper fetch tickers hit acc l dfs :
  Forall proper acc ->
  fetch_per_ticker fetch tickers hit acc = (l, Ok dfs) -> Forall proper dfs.
Proof.
  revert hit acc l. induction tickers as [|t ts IH]; intros hit acc l Hacc H.
  - by injection H as _ <-.
  - cbn [fetch_per_ticker] in H.
    apply M_bind_Ok in H as (? & [] & ? & _ & H & _).
    destruct hit.
    + apply M_bind_Ok in H as (? & [] & ? & _ & H & _). by eapply IH.
    + destruct (fetch_news_for_ticker fetch t) as [df|e] eqn:E.
      * apply M_bind_Ok in H as (? & [] & ? & _ & H & _).
        eapply IH; [|done]. apply Forall_app. split; [done|].
        apply fetch_news_for_ticker_Ok in E as (arts & _ & ->).
        apply Forall_singleton, proper_fetched_frame.
      * destruct e; try done.
        destruct (_ || _); [|done].
        apply M_bind_Ok in H as (? & [] & ? & _ & H & _). by eapply IH.
Qed.

Lemma build_or_load_proper all_dfs db log F :
  Forall proper all_dfs ->
  build_or_load all_dfs db = (log, Ok (Some F)) -> proper F.
Proof.
  intros Hp H. unfold build_or_load in H. destruct all_dfs as [|df dfs].
  - destruct db as [file|].
    + apply M_bind_Ok in H as (? & [] & ? & _ & H & _).
      apply M_bind_Ok in H as (? & A & ? & [HA _]%lift_Ok & H & _).
      injection H as _ <-.
      by apply proper_ensure_article_key, proper_ensure_news_id, (proper_read_csv file).
    + apply M_bind_Ok in H as (? & [] & ? & _ & H & _). done.
  - apply M_bind_Ok in H as (? & C & ? & [HC _]%lift_Ok & H & _).
    assert (proper (ensure_article_key (ensure_news_id C))) as HN
      by (by apply proper_ensure_article_key, proper_ensure_news_id, (proper_concat (df :: dfs))).
    destruct db as [file|].
    + apply M_bind_Ok in H as (? & A & ? & [HA _]%lift_Ok & H & _).
      assert (proper (ensure_article_key (ensure_news_id A))) as HA'
        by (by apply proper_ensure_article_key, proper_ensure_news_id, (proper_read_csv file)).
      apply M_bind_Ok in H as (? & col & ? & [Hg _]%lift_Ok & H & _).
      apply M_bind_Ok in H as (? & col' & ? & _ & H & _).
      apply M_bind_Ok in H as (? & [] & ? & _ & H & _).
      apply M_bind_Ok in H as (? & [] & ? & _ & H & _).
      apply M_bind_Ok in H as (? & [] & ? & _ & H & _).
      destruct (Nat.eqb _ 0).
      * by injection H as _ <-.
      * apply M_bind_Ok in H as (? & F' & ? & [HF _]%lift_Ok & H & _).
        injection H as _ <-. intros Hcols.
        apply getitem_Ok in Hg as [Hg _].
        assert ("NewsID" ∈ columns F') as Hin.
        { apply (elem_of_concat_columns _ _ _ HF). eexists. split; [by left|done]. }
        rewrite Hcols in Hin. inversion Hin.
    + apply M_bind_Ok in H as (? & [] & ? & _ & H & _). by injection H as _ <-.
Qed.

Lemma main_saved_NoDup sia fetch db log saved :
  main sia fetch db = (log, Ok (Some saved)) ->
  NoDup (NewsID <$> rows saved) /\ NoDup (ArticleKey <$> rows saved).
Proof.
  intros (l0 & all_dfs & l1 & Hf & Hm & _)%main_Ok.
  apply fetch_per_ticker_proper in Hf; [|constructor].
  unfold merge_and_save in Hm.
  apply M_bind_Ok in Hm as (? & [F|] & ? & Hb & Hm & _); [|done].
  apply M_bind_Ok in Hm as (? & saved' & ? & Hd & Hm & _). injection Hm as _ <-.
  eapply dedup_and_save_NoDup; [|done]. by eapply build_or_load_proper.
Qed.

(** ** Lemmas: first occurrences *)

Lemma elem_of_kept_iff {A} (key : A -> option string) seen (l : list A) x :
  x ∈ kept key seen l <->
  exists i, (l !! i = Some x) /\ (key x ∉ seen) /\ (key x ∉ key <$> take i l).
Proof.
  revert seen; induction l as [|y l IH]; intros seen.
  - rewrite kept_nil. split; [inversion 1 | by intros (i & ? & _)].
  - rewrite kept_cons. split.
    + intros H.
      assert (x = y /\ key y ∉ seen \/ x ∈ kept key ({[ key y ]} ∪ seen) l) as [[-> Hy]|Hx].
      { case_bool_decide; [by right|]. apply elem_of_cons in H as [->|?]; auto. }
      * exists 0. split; [done|]. split; [done|]. simpl. apply not_elem_of_nil.
      * apply IH in Hx as (i & Hi & Hs & Ht). exists (S i). split; [done|].
        split; [set_solver|]. cbn [firstn]. rewrite fmap_cons. set_solver.
    + intros ([|i] & Hi & Hs & Ht).
      * injection Hi as ->. rewrite bool_decide_eq_false_2 by done. by left.
      * simpl in Hi. cbn [firstn] in Ht. rewrite fmap_cons in Ht. apply not_elem_of_cons in Ht as [Hne Ht].
        assert (x ∈ kept key ({[ key y ]} ∪ seen) l) as Hx.
        { apply IH. exists i. split; [done|]. split; [set_solver|done]. }
        case_bool_decide; [done | by right].
Qed.

Lemma stored_url ticker a : url (stored ticker a) = a_url a.
Proof. reflexivity. Qed.

Lemma stored_publishedAt ticker a : publishedAt (stored ticker a) = a_publishedAt a.
Proof. reflexivity. Qed.

Lemma rows_fetched_frame ticker articles :
  rows (fetched_frame ticker articles) = stored ticker <$> kept a_url ∅ articles.
Proof. by destruct articles. Qed.

Lemma first_occurrence_unique {A K} (key : A -> K) (l : list A) i j x y :
  l !! i = Some x -> l !! j = Some y -> key x = key y ->
  key x ∉ (key <$> take i l) -> key y ∉ (key <$> take j l) -> i = j.
Proof.
  intros Hi Hj Heq Hni Hnj.
  destruct (Nat.lt_total i j) as [Hlt|[->|Hlt]]; [|done|].
  - destruct Hnj. rewrite <- Heq. apply list_elem_of_fmap. exists x. split; [done|].
    apply list_elem_of_lookup. exists i. by rewrite lookup_take_lt.
  - destruct Hni. rewrite Heq. apply list_elem_of_fmap. exists y. split; [done|].
    apply list_elem_of_lookup. exists j. by rewrite lookup_take_lt.
Qed.

(** ** Lemmas: blank texts *)

Section strings.
Import PyStr.

Lemma lstrip_head s :
  lstrip s = "" \/ exists c t, lstrip s = String c t /\ isspace c = false.
Proof.
  induction s as [|c s IH]; [by left|]. simpl.
  destruct (isspace c) eqn:E; [done|]. right. eauto.
Qed.

Lemma all_space_lstrip s : all_space (lstrip s) = all_space s.
Proof.
  induction s as [|c s IH]; [done|]. simpl.
  destruct (isspace c) eqn:E; [done|]. simpl. by rewrite E.
Qed.

Lemma rstrip_empty_iff s : rstrip s = "" <-> all_space s = true.
Proof.
  induction s as [|c s IH]; [done|]. simpl.
  destruct (rstrip s) eqn:Er.
  - destruct (isspace c); simpl; [|done]. tauto.
  - split; [done|]. intros [_ H]%andb_true_iff. apply IH in H. done.
Qed.

Lemma rstrip_head c s :
  isspace c = false -> exists t, rstrip (String c s) = String c t.
Proof. intros E. simpl. rewrite E. destruct (rstrip s); eauto. Qed.

Lemma strip_empty_iff s : strip s = "" <-> all_space s = true.
Proof. unfold strip. by rewrite rstrip_empty_iff, all_space_lstrip. Qed.

Lemma strip_head s :
  strip s = "" \/ exists c t, strip s = String c t /\ isspace c = false.
Proof.
  unfold strip. destruct (lstrip_head s) as [->|(c & t & -> & E)]; [by left|].
  right. destruct (rstrip_head c t E) as [t' ->]. eauto.
Qed.

Lemma all_space_app s1 s2 :
  all_space (s1 +:+ s2) = all_space s1 && all_space s2.
Proof.
  induction s1 as [|c s1 IH]; [done|]. simpl. by rewrite IH, andb_assoc.
Qed.

Lemma all_space_join (l : list string) :
  all_space (join " " l) = forallb all_space l.
Proof.
  unfold join. induction l as [|x [|y l] IH]; [done| |].
  - simpl. by rewrite andb_true_r.
  - change (String.concat " " (x :: y :: l))
      with (x +:+ " " +:+ String.concat " " (y :: l)).
    rewrite !all_space_app, IH. done.
Qed.

Lemma truthy_false s : truthy s = false <-> s = "".
Proof. by destruct s. Qed.

Lemma clean_not_blank v p : clean v = Some p -> all_space p = false.
Proof.
  destruct v as [s|]; [|done]. simpl.
  destruct (strip_head s) as [->|(c & t & -> & E)]; [done|]. simpl.
  intros [= <-]. simpl. by rewrite E.
Qed.

Lemma clean_None v :
  clean v = None <-> (forall s, v = Some s -> all_space s = true).
Proof.
  destruct v as [s|]; [|done]. simpl.
  destruct (truthy (strip s)) eqn:E.
  - split; [done|]. intros H. specialize (H s eq_refl).
    apply strip_empty_iff in H. by rewrite H in E.
  - apply truthy_false, strip_empty_iff in E. split; [|done]. by intros _ ? [= <-].
Qed.
End strings.

Lemma composed_eq r : composed r = PyStr.join " " (omap clean (text_fields r)).
Proof. reflexivity. Qed.

Lemma blank_clean_parts (l : list (option string)) :
  forallb all_space (omap clean l) = true <->
  Forall (fun v => forall s, v = Some s -> all_space s = true) l.
Proof.
  induction l as [|v l IH]; [by split; [constructor|]|].
  cbn [omap list_omap]. destruct (clean v) as [p|] eqn:E.
  - cbn [forallb]. rewrite (clean_not_blank _ _ E). split; [done|].
    intros [H _]%Forall_cons. apply (proj2 (clean_None v)) in H. congruence.
  - rewrite IH, Forall_cons. pose proof (proj1 (clean_None v) E). tauto.
Qed.

Lemma blank_spec_parts (l : list (option string)) :
  forallb all_space
    (omap (fun v => match v with
                    | Some s => if PyStr.truthy s then Some s else None
                    | None => None
                    end) l) = true <->
  Forall (fun v => forall s, v = Some s -> all_space s = true) l.
Proof.
  induction l as [|v l IH]; [by split; [constructor|]|].
  cbn [omap list_omap]. rewrite Forall_cons. destruct v as [s|].
  - destruct (PyStr.truthy s) eqn:E.
    + cbn [forallb]. rewrite andb_true_iff, IH. split.
      * intros [? ?]. split; [by intros ? [= <-] | done].
      * intros [H ?]. split; [by apply H | done].
    + apply truthy_false in E as ->. rewrite IH. split; [|tauto].
      intros ?. split; [by intros ? [= <-] | done].
  - rewrite IH. split; [|tauto]. intros ?. split; [done | done].
Qed.

(** The composed text of the code is blank exactly when the composed
    text of the specification is. *)
Lemma blank_composed_iff r :
  PyStr.strip (composed r) = "" <-> PyStr.strip (composed_spec r) = "".
Proof.
  rewrite !strip_empty_iff, composed_eq. unfold composed_spec.
  rewrite !all_space_join, blank_clean_parts, blank_spec_parts. done.
Qed.

Lemma sentiment_blank sia text :
  PyStr.strip text = "" ->
  _sentiment_for_text sia (Some text) = ([], Ok (None, None)).
Proof.
  intros H. unfold _sentiment_for_text. rewrite H. simpl.
  by rewrite orb_true_r.
Qed.

Lemma sentiment_not_blank sia text :
  PyStr.strip text ≠ "" ->
  _sentiment_for_text sia (Some text) =
    ([PolarityScores text],
     Ok (Some (default 0%Q (sia text !! "compound")),
         Some (if Qle_bool (5 # 100) (default 0%Q (sia text !! "compound"))
               then "positive"
               else if Qle_bool (default 0%Q (sia text !! "compound")) (- (5 # 100))
                    then "negative" else "neutral"))).
Proof.
  intros H. unfold _sentiment_for_text.
  assert (PyStr.truthy (PyStr.strip text) = true) as ->
    by (destruct (PyStr.strip text); done).
  assert (PyStr.truthy text = true) as -> by (destruct text; done).
  reflexivity.
Qed.

(** ** Lemmas: the dedup pass of the specification *)



(** ** The claims *)

(** *** C1: a batch of known rows *)

(** What holds of C1: with an archive in the persisted format whose keys
    are unique, and a batch that has its NewsID column and only NewsIDs
    of the archive, the run saves an archive with the keys of the old
    one, row for row. *)
Lemma main_known_batch_keeps_archive sia fetch file l0 all_dfs :
  archive_ok file ->
  NoDup (NewsID <$> rows file) -> NoDup (ArticleKey <$> rows file) ->
  fetch_per_ticker fetch TICKERS false [] = (l0, Ok all_dfs) ->
  (all_dfs ≠ [] -> "NewsID" ∈ columns (new_frame all_dfs)) ->
  (forall p, p ∈ batch_keys all_dfs -> p.1 ∈ NewsID <$> rows file) ->
  exists log saved,
    main sia fetch (Some file) = (log, Ok (Some saved)) /\
    ids <$> rows saved = ids <$> rows file /\
    length (rows saved) = length (rows file).
Proof.
  intros Hfile Hn1 Hn2 Hfetch Hnew Hknown.
  destruct (merge_and_save_archive sia _ _ Hfile Hnew) as (l1 & saved & Hm & Hk & _).
  exists (l0 ++ l1), saved. split; [by rewrite (main_run _ _ _ _ _ Hfetch), Hm|].
  assert (ids <$> rows saved = ids <$> rows file) as Hids.
  { rewrite Hk. apply merge_keys_known_ids.
    - by rewrite <- list_fmap_compose.
    - by rewrite <- list_fmap_compose.
    - intros p Hp. rewrite <- list_fmap_compose. by apply Hknown. }
  split; [done|]. by rewrite <- (length_fmap ids), Hids, length_fmap.
Qed.

Example main_known_batch_example :
  exists log saved,
    main sample_scores
      (nvda_only [sample_article "https://example.com/a" "Chip news" "2024-01-01T00:00:00Z"])
      (Some one_row_archive) = (log, Ok (Some saved)) /\
    Print (MsgNewUnique 0) ∈ log /\
    length (rows saved) = 1.
Proof.
  eexists _, _. split; [vm_compute; reflexivity|]. split; [|reflexivity].
  repeat first [by left | right].
Qed.

(** C1 at the failing input: the archive has one row and every ticker
    is fetched without an article, so that every row of the batch is
    known.  The concatenation of the empty frames has no column, and
    [new_df["NewsID"]] raises. *)
Theorem main_empty_batch_with_archive_raises (sia : string -> gmap string Q) :
  exists log,
    main sia no_articles (Some one_row_archive) = (log, Raise (KeyError "NewsID")).
Proof. eexists. vm_compute. reflexivity. Qed.

(** *** C2: the NewsID fingerprint *)

Lemma make_news_id_key ticker url published_at :
  make_news_id ticker url published_at =
    Sha256.hexdigest
      (PyStr.upper (PyStr.or_empty ticker) +:+ "|" +:+
       PyStr.strip (PyStr.or_empty url) +:+ "|" +:+
       PyStr.strip (PyStr.or_empty published_at)).
Proof. reflexivity. Qed.

(** The scenario of the specification: the NewsID of ticker "NVDA", URL
    "a", published at "2024-01-01T00:00:00Z". *)
Example make_news_id_scenario :
  make_news_id (Some "NVDA") (Some "a") (Some "2024-01-01T00:00:00Z") =
    Sha256.hexdigest "NVDA|a|2024-01-01T00:00:00Z" /\
  Sha256.hexdigest "NVDA|a|2024-01-01T00:00:00Z" =
    "fcd44f874f893122032bbc5709d1110754c80df6e66098797736dd1f37bec11c".
Proof. split; vm_compute; reflexivity. Qed.

(** When the ticker has no white space at its ends, [make_news_id] is
    the digest that C2 describes. *)
Lemma make_news_id_trimmed_ticker ticker url published_at :
  PyStr.strip (PyStr.upper (PyStr.or_empty ticker)) = PyStr.upper (PyStr.or_empty ticker) ->
  make_news_id ticker url published_at =
    Sha256.hexdigest
      (PyStr.strip (PyStr.upper (PyStr.or_empty ticker)) +:+ "|" +:+
       PyStr.strip (PyStr.or_empty url) +:+ "|" +:+
       PyStr.strip (PyStr.or_empty published_at)).
Proof. intros ->. reflexivity. Qed.

(** C2 at the failing input: [make_news_id] upper-cases the ticker but
    does not trim it, where [make_article_key] does both.  For the
    ticker " nvda" it hashes " NVDA|a|2024-01-01T00:00:00Z", not the
    string that C2 describes. *)
Theorem make_news_id_keeps_ticker_whitespace :
  make_news_id (Some " nvda") (Some "a") (Some "2024-01-01T00:00:00Z") =
    Sha256.hexdigest " NVDA|a|2024-01-01T00:00:00Z" /\
  make_news_id (Some " nvda") (Some "a") (Some "2024-01-01T00:00:00Z") ≠
    Sha256.hexdigest "NVDA|a|2024-01-01T00:00:00Z" /\
  make_article_key (Some " nvda") (Some "X") (Some "2024-01-01T00:00:00Z") =
    Sha256.hexdigest "NVDA|x|2024-01-01T00:00:00Z".
Proof.
  split; [vm_compute; reflexivity|]. split; [vm_compute; discriminate|].
  vm_compute; reflexivity.
Qed.

(** *** C3: the order of the dedup pass *)




(** The scenario of the specification: the archive holds "Chip news" at
    t1 under URL "a", the batch brings it under URL "b". *)
Example chip_news_scenario :
  exists log saved r,
    main sample_scores (nvda_only [sample_article "b" "Chip news" "t1"])
         (Some (archive_of (sample_article "a" "Chip news" "t1") (Some 0%Q) (Some "neutral")))
      = (log, Ok (Some saved)) /\
    rows saved = [r] /\ url r = Some "a" /\
    (Print (MsgNewUnique 1) ∈ log) /\ (Print (MsgFinalSize 1) ∈ log).
Proof.
  eexists _, _, _. split; [vm_compute; reflexivity|]. split; [reflexivity|].
  split; [reflexivity|]. split; repeat first [by left | right].
Qed.

(** Order matters: with the passes the other way round, the table of
    three rows below would keep one row, not two. *)
Example dedup_order_matters :
  let table :=
    [ legacy_row (Some "id-1") (Some "key-x") "a" "t";
      legacy_row (Some "id-1") (Some "key-y") "b" "t";
      legacy_row (Some "id-2") (Some "key-y") "c" "t" ] in
  length (remove_later_duplicates ArticleKey (remove_later_duplicates NewsID table)) = 2 /\
  length (remove_later_duplicates NewsID (remove_later_duplicates ArticleKey table)) = 1.
Proof. split; vm_compute; reflexivity. Qed.



(** *** C4: unique keys in the saved archive *)

(** C4. In the archive that a run persists, no two rows share a NewsID
    and no two rows share an ArticleKey.  [main] returns [Some saved]
    exactly when it wrote [saved] to [news_db.csv]. *)
Theorem saved_archive_keys_unique
    (sia : string -> gmap string Q) (fetch : NewsSource) (db : option DataFrame)
    (log : list event) (saved : DataFrame) :
  main sia fetch db = (log, Ok (Some saved)) ->
  forall i j r r',
    i ≠ j -> rows saved !! i = Some r -> rows saved !! j = Some r' ->
    NewsID r ≠ NewsID r' /\ ArticleKey r ≠ ArticleKey r'.
Proof.
  intros Hrun i j r r' Hij Hi Hj.
  destruct (main_saved_NoDup _ _ _ _ _ Hrun) as [H1 H2].
  split; intros Heq; apply Hij.
  - eapply (NoDup_lookup _ i j); [exact H1| |].
    + by rewrite list_lookup_fmap, Hi.
    + by rewrite list_lookup_fmap, Hj, Heq.
  - eapply (NoDup_lookup _ i j); [exact H2| |].
    + by rewrite list_lookup_fmap, Hi.
    + by rewrite list_lookup_fmap, Hj, Heq.
Qed.

Lemma saved_archive_keys_unique_witness :
  exists log saved,
    main sample_scores (nvda_only syndicated_articles) None = (log, Ok (Some saved)) /\
    length (rows saved) = 2 /\
    forall i j r r',
      i ≠ j -> rows saved !! i = Some r -> rows saved !! j = Some r' ->
      NewsID r ≠ NewsID r' /\ ArticleKey r ≠ ArticleKey r'.
Proof.
  assert (main sample_scores (nvda_only syndicated_articles) None = first_run) as H
    by (vm_compute; reflexivity).
  eexists _, _. split; [exact H|]. split; [reflexivity|].
  exact (saved_archive_keys_unique _ _ _ _ _ H).
Defined.

(** *** C5: lazy identity assignment *)




(** *** C6: merging twice *)

(** C6, as stated, fails.  The first run finds the NewsID of the batch
    row in the archive and drops it, then removes the second archive
    row, whose ArticleKey repeats the first; the second run no longer
    finds that NewsID and appends the batch row. *)
Lemma merge_twice_grows_legacy_archive :
  exists log1 saved1 log2 saved2,
    main sample_scores updated_title_batch (Some legacy_archive) = (log1, Ok (Some saved1)) /\
    main sample_scores updated_title_batch (Some saved1) = (log2, Ok (Some saved2)) /\
    length (rows saved1) = 1 /\
    length (rows saved2) = 2.
Proof.
  eexists _, _, _, _. split; [vm_compute; reflexivity|].
  split; [vm_compute; reflexivity|]. split; reflexivity.
Qed.

(** C6, amended.  For an archive in the persisted format whose NewsID
    and ArticleKey columns are complete and without duplicates, and a
    batch with which the run completes: the run on the saved archive
    with the same batch completes too, and saves as many rows. *)
Theorem merge_twice_same_size
    (sia : string -> gmap string Q) (fetch : NewsSource) (file : DataFrame)
    (log1 : list event) (saved1 : DataFrame) :
  archive_ok file ->
  NoDup (NewsID <$> rows file) ->
  NoDup (ArticleKey <$> rows file) ->
  main sia fetch (Some file) = (log1, Ok (Some saved1)) ->
  exists log2 saved2,
    main sia fetch (Some saved1) = (log2, Ok (Some saved2)) /\
    length (rows saved2) = length (rows saved1).
Proof.
  intros Hfile Hn1 Hn2 Hrun.
  destruct (main_rerun_same_keys _ _ _ _ _ Hfile Hn1 Hn2 Hrun) as (log2 & saved2 & H2 & Hids).
  exists log2, saved2. split; [done|].
  by rewrite <- (length_fmap ids), Hids, length_fmap.
Qed.

Lemma archive_ok_two_row_archive : archive_ok two_row_archive.
Proof.
  split.
  - intros c Hc. exact Hc.
  - repeat constructor; discriminate.
Defined.

Lemma merge_twice_same_size_witness :
  exists log1 saved1 log2 saved2,
    main sample_scores updated_title_batch (Some two_row_archive) = (log1, Ok (Some saved1)) /\
    main sample_scores updated_title_batch (Some saved1) = (log2, Ok (Some saved2)) /\
    length (rows saved1) = 3 /\
    length (rows saved2) = length (rows saved1).
Proof.
  assert (exists log1 saved1,
            main sample_scores updated_title_batch (Some two_row_archive)
              = (log1, Ok (Some saved1)) /\ length (rows saved1) = 3)
    as (log1 & saved1 & H1 & Hlen)
    by (eexists _, _; split; [vm_compute; reflexivity | reflexivity]).
  assert (NoDup (NewsID <$> rows two_row_archive)) as Hn1
    by (apply (bool_decide_unpack _); vm_compute; exact I).
  assert (NoDup (ArticleKey <$> rows two_row_archive)) as Hn2
    by (apply (bool_decide_unpack _); vm_compute; exact I).
  destruct (merge_twice_same_size _ _ _ _ _ archive_ok_two_row_archive Hn1 Hn2 H1)
    as (log2 & saved2 & H2 & Heq).
  exists log1, saved1, log2, saved2. auto.
Defined.

(** *** C7: rows that have a score *)

Lemma well_formed_partly_scored_table : well_formed partly_scored_table.
Proof. repeat constructor. Defined.

(** C7. [ensure_sentiment] computes the sentiment of exactly the rows
    whose score is null: each of them gets the score and label of its
    composed text, the scorer is called for those rows only, and a row
    that has a score keeps it, with its label and every other cell.
    The table has the text columns, as the docstring asks. *)
Theorem ensure_sentiment_scores_missing_rows_only
    (sia : string -> gmap string Q) (df : DataFrame) :
  well_formed df ->
  (forall c, c ∈ default_text_columns -> c ∈ columns df) ->
  exists log df',
    ensure_sentiment sia df = (log, Ok df') /\
    length (rows df') = length (rows df) /\
    (forall i r, rows df !! i = Some r -> sentiment_score r = None ->
       rows df' !! i = Some (enrich sia r)) /\
    (forall i r, rows df !! i = Some r -> sentiment_score r ≠ None ->
       rows df' !! i = Some r) /\
    log = rows df ≫= missing_calls sia.
Proof.
  intros Hwf Htc. destruct (ensure_sentiment_rows sia df Hwf Htc) as (df' & Hrun & Hrows).
  exists (rows df ≫= missing_calls sia), df'. split; [done|].
  split; [by rewrite Hrows, length_fmap|]. split; [|split; [|done]].
  - intros i r Hi Hs. rewrite Hrows, list_lookup_fmap, Hi. simpl.
    unfold enrich_if_missing. by rewrite Hs.
  - intros i r Hi Hs. rewrite Hrows, list_lookup_fmap, Hi. simpl.
    unfold enrich_if_missing. by destruct (sentiment_score r).
Qed.

Lemma ensure_sentiment_scores_missing_rows_only_witness :
  exists log df',
    ensure_sentiment sample_scores partly_scored_table = (log, Ok df') /\
    length (rows df') = 3 /\
    (sentiment_score <$> rows df' : list (option Q)) =
      [Some (- (7 # 10))%Q; Some (- (6 # 10))%Q; None] /\
    sentiment_label <$> rows df' = [Some "negative"; Some "negative"; None] /\
    log = [PolarityScores "Shares slump"].
Proof.
  destruct (ensure_sentiment_scores_missing_rows_only sample_scores partly_scored_table
              well_formed_partly_scored_table)
    as (log & df' & Hrun & Hlen & Hnew & Hold & Hlog).
  { intros c Hc. unfold default_text_columns in Hc.
    unfold partly_scored_table, archive_schema. simpl. set_solver. }
  exists log, df'. split; [done|]. split; [done|].
  pose proof (Hold 0 _ eq_refl ltac:(done)) as H0.
  pose proof (Hnew 1 _ eq_refl eq_refl) as H1.
  pose proof (Hnew 2 _ eq_refl eq_refl) as H2.
  destruct (rows df') as [|r0 [|r1 [|r2 [|]]]]; try discriminate Hlen.
  injection H0 as ->. injection H1 as ->. injection H2 as ->.
  split; [vm_compute; reflexivity|]. split; [vm_compute; reflexivity|].
  rewrite Hlog. vm_compute. reflexivity.
Defined.

(** *** C8: blank texts and thresholds *)

Lemma sentiment_calls_cases sia text :
  (PyStr.strip text = "" /\ sentiment_calls sia text = []) \/
  (PyStr.strip text ≠ "" /\ sentiment_calls sia text = [PolarityScores text]).
Proof.
  unfold sentiment_calls. destruct (decide (PyStr.strip text = "")) as [H|H].
  - left. by rewrite sentiment_blank.
  - right. by rewrite sentiment_not_blank.
Qed.

Lemma missing_calls_not_blank sia (l : list Row) e :
  e ∈ l ≫= missing_calls sia ->
  exists r, r ∈ l /\ sentiment_score r = None /\
            e = PolarityScores (composed r) /\ PyStr.strip (composed r) ≠ "".
Proof.
  intros (r & He & Hr)%list_elem_of_bind. exists r. split; [done|].
  unfold missing_calls in He. destruct (sentiment_score r); [inversion He|].
  simpl in He. split; [done|].
  destruct (sentiment_calls_cases sia (composed r)) as [[_ E]|[Hn E]];
    rewrite E in He; [inversion He|].
  apply list_elem_of_singleton in He. done.
Qed.

(** C8. For every row that [ensure_sentiment] enriches: when the
    composed text (the non-empty fields title, description and
    content_snippet, joined by a space) is empty or white space only,
    the score and the label are null and the scorer is not called for
    it; otherwise the scorer is called on the text, the score is its
    compound value, and the label is "positive" from 0.05 up,
    "negative" from -0.05 down, and "neutral" in between. *)
Theorem enriched_row_sentiment (sia : string -> gmap string Q) (df : DataFrame) :
  well_formed df ->
  (forall c, c ∈ default_text_columns -> c ∈ columns df) ->
  exists log df',
    ensure_sentiment sia df = (log, Ok df') /\
    (forall text, PolarityScores text ∈ log -> PyStr.strip text ≠ "") /\
    forall i r,
      rows df !! i = Some r -> sentiment_score r = None ->
      exists r',
        rows df' !! i = Some r' /\
        (PyStr.strip (composed_spec r) = "" ->
           sentiment_score r' = None /\ sentiment_label r' = None /\
           (PolarityScores (composed r) ∉ log)) /\
        (PyStr.strip (composed_spec r) ≠ "" ->
           (PolarityScores (composed r) ∈ log) /\
           exists compound,
             compound = default 0%Q (sia (composed r) !! "compound") /\
             sentiment_score r' = Some compound /\
             ((5 # 100 <= compound)%Q -> sentiment_label r' = Some "positive") /\
             ((compound <= - (5 # 100))%Q -> sentiment_label r' = Some "negative") /\
             (~ (5 # 100 <= compound)%Q -> ~ (compound <= - (5 # 100))%Q ->
                sentiment_label r' = Some "neutral")).
Proof.
  intros Hwf Htc. destruct (ensure_sentiment_rows sia df Hwf Htc) as (df' & Hrun & Hrows).
  exists (rows df ≫= missing_calls sia), df'. split; [done|].
  assert (forall text, PolarityScores text ∈ rows df ≫= missing_calls sia ->
                       PyStr.strip text ≠ "") as Hlog.
  { intros text (r & _ & _ & [= ->] & H)%missing_calls_not_blank. done. }
  split; [done|]. intros i r Hi Hs. exists (enrich sia r). split.
  { rewrite Hrows, list_lookup_fmap, Hi. simpl. unfold enrich_if_missing. by rewrite Hs. }
  rewrite <- blank_composed_iff. unfold enrich, sentiment_value. split.
  - intros Hb. rewrite (sentiment_blank sia _ Hb). simpl.
    split; [done|]. split; [done|]. intros H%Hlog. done.
  - intros Hb. rewrite (sentiment_not_blank sia _ Hb). simpl. split.
    + apply list_elem_of_bind. exists r. split; [|by eapply list_elem_of_lookup_2].
      unfold missing_calls. rewrite Hs. simpl.
      destruct (sentiment_calls_cases sia (composed r)) as [[? _]|[_ ->]]; [done|].
      by left.
    + eexists. split; [reflexivity|]. split; [reflexivity|].
      set (compound := default 0%Q (sia (composed r) !! "compound")).
      destruct (Qle_bool (5 # 100) compound) eqn:E1.
      * apply Qle_bool_iff in E1. split; [done|]. split; [|done].
        intros E2. exfalso. pose proof (Qle_trans _ _ _ E1 E2) as H. by vm_compute in H.
      * assert (~ (5 # 100 <= compound)%Q) as N1
          by (intros H%Qle_bool_iff; congruence).
        split; [done|]. destruct (Qle_bool compound (- (5 # 100))) eqn:E2.
        -- apply Qle_bool_iff in E2. split; [done|]. done.
        -- split; [|done]. intros H%Qle_bool_iff. congruence.
Qed.

Lemma enriched_row_sentiment_witness :
  exists log df' r1 r2,
    ensure_sentiment sample_scores partly_scored_table = (log, Ok df') /\
    rows df' !! 1 = Some r1 /\
    sentiment_score r1 = Some (- (6 # 10))%Q /\
    sentiment_label r1 = Some "negative" /\
    (PolarityScores "Shares slump" ∈ log) /\
    rows df' !! 2 = Some r2 /\
    sentiment_score r2 = None /\
    sentiment_label r2 = None.
Proof.
  destruct (enriched_row_sentiment sample_scores partly_scored_table
              well_formed_partly_scored_table)
    as (log & df' & Hrun & _ & H).
  { intros c Hc. unfold default_text_columns in Hc.
    unfold partly_scored_table, archive_schema. simpl. set_solver. }
  destruct (H 1 _ eq_refl eq_refl) as (r1 & Hr1 & _ & Hnb).
  destruct Hnb as (Hcall & c & -> & Hs & _ & Hneg & _); [vm_compute; discriminate|].
  destruct (H 2 _ eq_refl eq_refl) as (r2 & Hr2 & Hb & _).
  destruct Hb as (Hs2 & Hl2 & _); [vm_compute; reflexivity|].
  exists log, df', r1, r2. split; [done|]. split; [done|].
  split; [rewrite Hs; vm_compute; reflexivity|].
  split; [apply Hneg; by vm_compute|].
  split; [exact Hcall|]. done.
Defined.

(** *** C9: nothing fetched, no archive *)

Lemma main_nothing_to_do sia fetch l0 :
  fetch_per_ticker fetch TICKERS false [] = (l0, Ok []) ->
  main sia fetch None = (l0 ++ [Print MsgNothingToDo], Ok None).
Proof. intros H. by rewrite (main_run _ _ _ _ _ H). Qed.

Example main_rate_limited_no_archive sia :
  exists log,
    main sia rate_limited None = (log ++ [Print MsgNothingToDo], Ok None).
Proof. eexists. apply main_nothing_to_do. vm_compute. reflexivity. Qed.

(** C9 at the failing input: every ticker is fetched and has no article,
    and there is no archive file.  [all_dfs] then holds six empty
    frames, the branch "No new data fetched this run" is not taken, and
    the run writes an archive file with no column and no row, without
    the notice. *)
Theorem main_empty_batch_no_archive_writes_file (sia : string -> gmap string Q) :
  exists log,
    main sia no_articles None = (log, Ok (Some {| columns := []; rows := [] |})) /\
    (Print MsgNothingToDo ∉ log) /\
    (Print MsgCreating ∈ log) /\
    read_csv {| columns := []; rows := [] |} =
      Raise (EmptyDataError "No columns to parse from file").
Proof.
  eexists. split; [vm_compute; reflexivity|]. split; [|split; [|reflexivity]].
  - intros H. repeat (apply elem_of_cons in H as [H|H]; [discriminate H|]). inversion H.
  - repeat first [by left | right].
Qed.

(** *** C10: one row per URL in a fetched batch *)

(** C10. Within one ticker's fetched batch at most one row per URL
    survives [fetch_news_for_ticker]: the rows are deduplicated by URL
    alone, before any NewsID exists, and the row kept for a URL is that
    of the first article with it; a later article with the same URL and
    another publication timestamp is dropped. *)
Theorem fetch_news_for_ticker_one_row_per_url
    (fetch : NewsSource) (ticker : string) (articles : list Article) :
  fetch ticker = Ok articles ->
  exists df,
    fetch_news_for_ticker fetch ticker = Ok df /\
    NoDup (url <$> rows df) /\
    (forall r, r ∈ rows df <->
       exists i a, (articles !! i = Some a) /\
                   (a_url a ∉ a_url <$> take i articles) /\
                   r = stored ticker a) /\
    (forall i j a b,
       i < j -> articles !! i = Some a -> articles !! j = Some b ->
       a_url a ∉ (a_url <$> take i articles) ->
       a_url b = a_url a -> a_publishedAt b ≠ a_publishedAt a ->
       stored ticker a ∈ rows df /\ stored ticker b ∉ rows df).
Proof.
  intros Hfetch. exists (fetched_frame ticker articles).
  split; [by apply fetch_news_for_ticker_run|].
  rewrite rows_fetched_frame.
  assert (forall r, r ∈ stored ticker <$> kept a_url ∅ articles <->
            exists i a, (articles !! i = Some a) /\
                        (a_url a ∉ a_url <$> take i articles) /\
                        r = stored ticker a) as Hrows.
  { intros r. rewrite list_elem_of_fmap. split.
    - intros (a & -> & (i & Hi & _ & Hn)%elem_of_kept_iff). eauto.
    - intros (i & a & Hi & Hn & ->). exists a. split; [done|].
      apply elem_of_kept_iff. exists i. split; [done|]. split; [set_solver|done]. }
  split; [|split; [done|]].
  - rewrite <- list_fmap_compose.
    apply (NoDup_kept a_url ∅ articles).
  - intros i j a b Hlt Hi Hj Hfirst Hurl Hts. split.
    + apply Hrows. eauto.
    + intros (i' & a' & Hi' & Hfirst' & Heq)%Hrows.
      assert (a_url a' = a_url a) as Hurl'.
      { rewrite <- Hurl, <- !(stored_url ticker). by rewrite Heq. }
      assert (i' = i) as -> by (eapply (first_occurrence_unique a_url); eauto).
      assert (a' = a) as -> by congruence.
      apply Hts. rewrite <- !(stored_publishedAt ticker). by rewrite Heq.
Qed.

Lemma fetch_news_for_ticker_one_row_per_url_witness :
  nvda_only same_url_articles "NVDA" = Ok same_url_articles /\
  exists df,
    fetch_news_for_ticker (nvda_only same_url_articles) "NVDA" = Ok df /\
    NoDup (url <$> rows df) /\
    (forall r, r ∈ rows df <->
       exists i a, (same_url_articles !! i = Some a) /\
                   (a_url a ∉ a_url <$> take i same_url_articles) /\
                   r = stored "NVDA" a) /\
    (forall i j a b,
       i < j -> same_url_articles !! i = Some a -> same_url_articles !! j = Some b ->
       a_url a ∉ (a_url <$> take i same_url_articles) ->
       a_url b = a_url a -> a_publishedAt b ≠ a_publishedAt a ->
       stored "NVDA" a ∈ rows df /\ stored "NVDA" b ∉ rows df).
Proof.
  split; [reflexivity|].
  apply (fetch_news_for_ticker_one_row_per_url (nvda_only same_url_articles) "NVDA").
  reflexivity.
Defined.

Example fetch_same_url_collapses :
  exists df r,
    fetch_news_for_ticker (nvda_only same_url_articles) "NVDA" = Ok df /\
    rows df = [r] /\
    publishedAt r = Some "2024-01-01T00:00:00Z" /\
    make_news_id (Some "NVDA") (Some "https://example.com/a") (Some "2024-01-01T00:00:00Z")
      ≠ make_news_id (Some "NVDA") (Some "https://example.com/a") (Some "2024-01-02T00:00:00Z").
Proof.
  eexists _, _. split; [vm_compute; reflexivity|].
  split; [reflexivity|]. split; [reflexivity|]. vm_compute. discriminate.
Qed.
